(** * catalyst.exchange: a shallow embedding of the live-trading core

    The development follows the layout of the Python package:

    - [Errors]: the exceptions of [exchange_errors.py] and the built-in
      ones the code can run into;
    - the order / portfolio data model;
    - [Exchange]: the concrete helpers of the abstract base class in
      [exchange.py] ([get_asset], [load_assets], [check_open_orders]);
    - [Connector]: the methods of the exchange object the algorithm
      calls, as an interface;
    - [ExchangeTradingAlgorithm] of [algorithm_exchange.py]: the four
      retrying wrappers, [handle_data], [order], [cancel_order] and
      [signal_handler], over a state record [Algo].

    Python objects mutated in place are modelled by explicit state
    passing; a call that may raise returns a [result]. *)

From Stdlib Require Import ZArith QArith List Lia Ascii String.
From Equations Require Import Equations.
From stdpp Require Import gmap strings list fin_maps finite.

Open Scope Z_scope.
Open Scope string_scope.
Open Scope list_scope.

(* ===================================================================== *)
(** ** Exceptions and results *)
(* ===================================================================== *)

Module Errors.

(** [exchange_errors.py] declares the first two; the others are the
    exceptions of [catalyst.errors] and of the interpreter that the
    modelled functions raise or let through. *)
Inductive exn : Type :=
| ExchangeRequestError (error : string)
| ExchangeRequestErrorTooManyAttempts (error : string) (attempts : Z)
| SymbolNotFound (msg : string)
| MultipleSymbolsFound (msg : string)
| OrderInBeforeTradingStart
| KeyError
| TypeError
| SystemExit (code : Z)
| OtherError (name : string).

(** [except ExchangeRequestError as e]. *)
Definition as_request_error (e : exn) : option string :=
  match e with
  | ExchangeRequestError error => Some error
  | _ => None
  end.

(** [except Exception]: everything but [SystemExit], which derives
    from [BaseException]. *)
Definition is_Exception (e : exn) : bool :=
  match e with
  | SystemExit _ => false
  | _ => true
  end.

Inductive result (A : Type) : Type :=
| Ok (value : A)
| Raise (e : exn).
Arguments Ok {A} value.
Arguments Raise {A} e.

End Errors.
Import Errors.

(* ===================================================================== *)
(** ** Data model *)
(* ===================================================================== *)

Definition Timestamp := Z.

(** Prices and commissions are only ever copied by the modelled code. *)
Definition Price := Q.

Module Asset.
Record t : Type := mk {
  sid : Z;
  exchange : option string;
  end_date : Timestamp;
  symbol : string;
  start_date : Timestamp
}.

Global Instance eq_dec : EqDecision t.
Proof. solve_decision. Defined.
End Asset.

(** Modelled from the spec: the [ORDER_STATUS] enumeration of
    [catalyst.finance.order] is not part of the sources at hand; the
    data model lists these four states. *)
Inductive ORDER_STATUS : Type := OPEN | FILLED | CANCELLED | REJECTED.

Global Instance ORDER_STATUS_eq_dec : EqDecision ORDER_STATUS.
Proof. solve_decision. Defined.

Inductive ExecutionStyle : Type :=
| MarketOrder
| LimitOrder (limit_price : Price)
| StopOrder (stop_price : Price)
| StopLimitOrder (limit_price stop_price : Price).

Module Order.
Record t : Type := mk {
  id : string;
  asset : Asset.t;
  amount : Z;
  limit : option Price;
  stop : option Price;
  status : ORDER_STATUS;
  dt : Timestamp;
  executed_price : Price;
  commission : Price
}.
End Order.

Module Transaction.
Record t : Type := mk {
  asset : Asset.t;
  amount : Z;
  dt : Timestamp;
  price : Price;
  order_id : string;
  commission : Price
}.
End Transaction.

(** Modelled from the spec: the portfolio class ([execute_order],
    [remove_order]) is not part of the sources at hand. The data model
    gives it a mapping from order id to open order and a position per
    asset; a FILLED order is removed from the open set and its amount
    applied to the position of its asset, a CANCELLED order is removed
    from the open set and leaves the positions alone. *)
Module Portfolio.
Record t : Type := mk {
  open_orders : gmap string Order.t;
  positions : Asset.t -> Z
}.

Definition execute_order (portfolio : t) (order : Order.t) : t :=
  {| open_orders := delete (Order.id order) (open_orders portfolio);
     positions := fun a =>
       if decide (a = Order.asset order)
       then positions portfolio a + Order.amount order
       else positions portfolio a |}.

Definition remove_order (portfolio : t) (order : Order.t) : t :=
  {| open_orders := delete (Order.id order) (open_orders portfolio);
     positions := positions portfolio |}.
End Portfolio.

(* ===================================================================== *)
(** ** Strings: [str.lower] *)
(* ===================================================================== *)

(** [lower] on the ASCII range: the letters A-Z move down by 32. *)
Definition lower_ascii (c : ascii) : ascii :=
  let n := Ascii.N_of_ascii c in
  if ((65 <=? n) && (n <=? 90))%N then Ascii.ascii_of_N (n + 32) else c.

Fixpoint lower (s : string) : string :=
  match s with
  | EmptyString => EmptyString
  | String c rest => String (lower_ascii c) (lower rest)
  end.

(* ===================================================================== *)
(** ** Python dictionaries whose iteration order is observed *)
(* ===================================================================== *)

(** The asset registry is scanned with [for key in self.assets]; the
    list gives the entries in iteration order. [dict_set] is
    [d[key] = value]: an existing key keeps its place. *)
Fixpoint dict_set {V : Type} (key : string) (value : V)
    (d : list (string * V)) : list (string * V) :=
  match d with
  | [] => [(key, value)]
  | (k, v) :: rest =>
      if decide (k = key) then (k, value) :: rest
      else (k, v) :: dict_set key value rest
  end.

Fixpoint dict_get {V : Type} (key : string) (d : list (string * V)) : option V :=
  match d with
  | [] => None
  | (k, v) :: rest => if decide (k = key) then Some v else dict_get key rest
  end.

(* ===================================================================== *)
(** ** exchange.py: the asset registry *)
(* ===================================================================== *)

Module Exchange.

(** One value of the decoded [assets_json] object. *)
Record AssetJson : Type := mkJson {
  json_symbol : string;
  json_start_date : string
}.

Section WithEnvironment.

(** The built-in [hash] on strings, [pd.to_datetime],
    [pd.Timestamp.utcnow()] and [self.name]. *)
Variable hash : string -> Z.
Variable to_datetime : string -> Timestamp.
Variable utcnow : Timestamp.
Variable name : option string.

(** [abs(hash(symbol)) % (10 ** 4)] *)
Definition asset_sid (symbol : string) : Z :=
  Z.abs (hash symbol) mod (10 ^ 4).

(** [timedelta(minutes=300000)], in seconds. *)
Definition end_date_offset : Z := 300000 * 60.

(** The body of the loop of [load_assets] for one key. *)
Definition make_asset (entry : AssetJson) : Asset.t :=
  {| Asset.sid := asset_sid (json_symbol entry);
     Asset.exchange := name;
     Asset.end_date := utcnow + end_date_offset;
     Asset.symbol := json_symbol entry;
     Asset.start_date := to_datetime (json_start_date entry) |}.

(** [load_assets]: [for exchange_symbol in assets:
    self.assets[exchange_symbol] = Asset(...)]. *)
Fixpoint load_assets (assets_json : list (string * AssetJson))
    (assets : list (string * Asset.t)) : list (string * Asset.t) :=
  match assets_json with
  | [] => assets
  | (exchange_symbol, entry) :: rest =>
      load_assets rest (dict_set exchange_symbol (make_asset entry) assets)
  end.

End WithEnvironment.

(** The loop of [get_asset]: the first entry whose lower-cased symbol
    equals the lower-cased query is kept ([if not asset and ...]). *)
Fixpoint get_asset_loop (entries : list (string * Asset.t)) (symbol : string)
    (asset : option Asset.t) : option Asset.t :=
  match entries with
  | [] => asset
  | (_, a) :: rest =>
      match asset with
      | None =>
          if decide (lower (Asset.symbol a) = lower symbol)
          then get_asset_loop rest symbol (Some a)
          else get_asset_loop rest symbol None
      | Some _ => get_asset_loop rest symbol asset
      end
  end.

Definition get_asset (assets : list (string * Asset.t)) (symbol : string)
    : result Asset.t :=
  match get_asset_loop assets symbol None with
  | None => Raise (SymbolNotFound ("Asset not found: " +:+ symbol))
  | Some asset => Ok asset
  end.

(** No entry of [entries] carries [symbol], up to case. *)
Definition no_match (entries : list (string * Asset.t)) (symbol : string) : Prop :=
  forall k a, In (k, a) entries -> lower (Asset.symbol a) <> lower symbol.

(* ===================================================================== *)
(** ** exchange.py: reconciliation of the open orders *)
(* ===================================================================== *)

Section CheckOpenOrders.

(** The abstract [get_order] as one pass sees it: every open id is asked
    about once per pass, so the answers of a pass form a function of the
    id; an answer is an order or the exception the connector raised.
    [utcnow] is the clock reading stamped on the transactions. *)
Variable get_order : string -> result Order.t.
Variable utcnow : Timestamp.

Definition make_transaction (order : Order.t) : Transaction.t :=
  {| Transaction.asset := Order.asset order;
     Transaction.amount := Order.amount order;
     Transaction.dt := utcnow;
     Transaction.price := Order.executed_price order;
     Transaction.order_id := Order.id order;
     Transaction.commission := Order.commission order |}.

(** The [for order_id in list(self.portfolio.open_orders)] loop. An
    exception of [get_order] leaves the loop with the portfolio as
    mutated so far; the local [transactions] list is lost with it. *)
Fixpoint check_open_orders_loop (order_ids : list string)
    (portfolio : Portfolio.t) (transactions : list Transaction.t)
    : Portfolio.t * result (list Transaction.t) :=
  match order_ids with
  | [] => (portfolio, Ok transactions)
  | order_id :: rest =>
      match get_order order_id with
      | Raise e => (portfolio, Raise e)
      | Ok order =>
          match Order.status order with
          | FILLED =>
              check_open_orders_loop rest
                (Portfolio.execute_order portfolio order)
                (transactions ++ [make_transaction order])
          | CANCELLED =>
              check_open_orders_loop rest
                (Portfolio.remove_order portfolio order) transactions
          | _ => check_open_orders_loop rest portfolio transactions
          end
      end
  end.

(** [list(self.portfolio.open_orders)]: the keys, each once. *)
Definition order_ids (portfolio : Portfolio.t) : list string :=
  (map_to_list (Portfolio.open_orders portfolio)).*1.

Definition check_open_orders (portfolio : Portfolio.t)
    : Portfolio.t * result (list Transaction.t) :=
  if decide (size (Portfolio.open_orders portfolio) = 0%nat)
  then (portfolio, Ok [])
  else check_open_orders_loop (order_ids portfolio) portfolio [].

End CheckOpenOrders.

(** The connector answers a query with the order asked for. *)
Definition answers_by_id (get_order : string -> result Order.t) : Prop :=
  forall order_id order, get_order order_id = Ok order -> Order.id order = order_id.

(** The pass takes [order_id] out of the open set: the connector
    reports its order FILLED or CANCELLED. *)
Definition leaves_open_set (get_order : string -> result Order.t)
    (order_id : string) : Prop :=
  exists order, get_order order_id = Ok order /\
    (Order.status order = FILLED \/ Order.status order = CANCELLED).

(** The status a pass observes for an id, when the connector answers. *)
Definition observed_status (get_order : string -> result Order.t)
    (order_id : string) : option ORDER_STATUS :=
  match get_order order_id with
  | Ok order => Some (Order.status order)
  | Raise _ => None
  end.

(** What a pass is expected to emit for one id: the transaction of its
    order when the connector reports it FILLED. *)
Definition fill_of (get_order : string -> result Order.t) (utcnow : Timestamp)
    (order_id : string) : list Transaction.t :=
  match get_order order_id with
  | Ok order =>
      match Order.status order with
      | FILLED => [make_transaction utcnow order]
      | _ => []
      end
  | Raise _ => []
  end.

(** The amounts of the orders among [ids] reported FILLED for [asset]. *)
Fixpoint filled_amount (get_order : string -> result Order.t) (asset : Asset.t)
    (ids : list string) : Z :=
  match ids with
  | [] => 0
  | order_id :: rest =>
      match get_order order_id with
      | Ok order =>
          match Order.status order with
          | FILLED =>
              if decide (asset = Order.asset order)
              then Order.amount order + filled_amount get_order asset rest
              else filled_amount get_order asset rest
          | _ => filled_amount get_order asset rest
          end
      | Raise _ => filled_amount get_order asset rest
      end
  end.

(** The transactions of a list that stem from one order. *)
Definition transactions_of (order_id : string) (transactions : list Transaction.t)
    : list Transaction.t :=
  filter (fun t => Transaction.order_id t = order_id) transactions.

(** Every pass of a sequence is answered by id. *)
Definition all_answer_by_id (passes : list (string -> result Order.t)) : Prop :=
  Forall answers_by_id passes.

(** Successive calls of [check_open_orders] on the same portfolio
    object, each with the answers the connector gives during that call:
    a call that raises hands back no transaction, the portfolio stays
    as that call left it, and the next call (the retry of
    [_check_open_orders], or the next tick) goes on from there. The
    outcome of every call is kept, in order. *)
Fixpoint check_open_orders_passes (passes : list (string -> result Order.t))
    (utcnow : Timestamp) (portfolio : Portfolio.t)
    : Portfolio.t * list (result (list Transaction.t)) :=
  match passes with
  | [] => (portfolio, [])
  | get_order :: rest =>
      match check_open_orders get_order utcnow portfolio with
      | (portfolio', outcome) =>
          match check_open_orders_passes rest utcnow portfolio' with
          | (portfolio'', later) => (portfolio'', outcome :: later)
          end
      end
  end.

(** The transactions the callers of a sequence of passes get to see:
    those of the passes that returned. *)
Definition returned_transactions (outcomes : list (result (list Transaction.t)))
    : list Transaction.t :=
  flat_map (fun outcome =>
              match outcome with
              | Ok transactions => transactions
              | Raise _ => []
              end) outcomes.

(** [get_trading_pairs]: the comprehension
    [[pair for pair in pairs if pair in self.trading_pairs]].
    [self.trading_pairs] is [None] until an adapter sets it, and
    [pair in None] is a [TypeError]; with no pair the test never runs. *)
Fixpoint get_trading_pairs (trading_pairs : option (list string))
    (pairs : list string) : result (list string) :=
  match pairs with
  | [] => Ok []
  | a_pair :: rest =>
      match trading_pairs with
      | None => Raise TypeError
      | Some supported =>
          match get_trading_pairs trading_pairs rest with
          | Raise e => Raise e
          | Ok kept =>
              Ok (if bool_decide (a_pair ∈ supported) then a_pair :: kept else kept)
          end
      end
  end.

(** [not symbol] for a variable that holds [None] or a string: the
    empty string is falsy too. *)
Definition not_symbol (symbol : option string) : bool :=
  match symbol with
  | None => true
  | Some s => bool_decide (s = "")
  end.

(** The loop of [get_symbol]: the symbols are compared as they are. *)
Fixpoint get_symbol_loop (entries : list (string * Asset.t)) (asset : Asset.t)
    (symbol : option string) : option string :=
  match entries with
  | [] => symbol
  | (key, a) :: rest =>
      if not_symbol symbol && bool_decide (Asset.symbol a = Asset.symbol asset)
      then get_symbol_loop rest asset (Some key)
      else get_symbol_loop rest asset symbol
  end.

Section GetSymbol.

(** [asset['symbol']], evaluated while the message of the [ValueError]
    is built: what subscripting an asset gives is up to the asset
    class. *)
Variable asset_getitem : Asset.t -> string -> result string.

Definition get_symbol (assets : list (string * Asset.t)) (asset : Asset.t)
    : result string :=
  let symbol := get_symbol_loop assets asset None in
  if not_symbol symbol then
    match asset_getitem asset "symbol" with
    | Raise e => Raise e
    | Ok _ => Raise (OtherError "ValueError")
    end
  else
    match symbol with
    | Some key => Ok key
    | None => Raise (OtherError "ValueError")
    end.

(** [get_symbols]: [symbols.append(self.get_symbol(asset))] for every
    asset in turn. *)
Fixpoint get_symbols_loop (assets : list (string * Asset.t))
    (wanted : list Asset.t) (symbols : list string) : result (list string) :=
  match wanted with
  | [] => Ok symbols
  | asset :: rest =>
      match get_symbol assets asset with
      | Raise e => Raise e
      | Ok symbol => get_symbols_loop assets rest (symbols ++ [symbol])
      end
  end.

Definition get_symbols (assets : list (string * Asset.t)) (wanted : list Asset.t)
    : result (list string) :=
  get_symbols_loop assets wanted [].

End GetSymbol.

(** No entry of [entries] that [get_symbol] could return for [asset]:
    the entries with the symbol of [asset] have the empty key. *)
Definition not_listed (entries : list (string * Asset.t)) (asset : Asset.t) : Prop :=
  forall k a, In (k, a) entries -> Asset.symbol a = Asset.symbol asset -> k = "".

(** The last value a decoded object gives for a key. *)
Fixpoint last_entry {V : Type} (key : string) (d : list (string * V)) : option V :=
  match d with
  | [] => None
  | (k, v) :: rest =>
      match last_entry key rest with
      | Some v' => Some v'
      | None => if decide (k = key) then Some v else None
      end
  end.

End Exchange.

(* ===================================================================== *)
(** ** The exchange as the algorithm sees it *)
(* ===================================================================== *)

(** [get_open_orders]: a dict from asset to orders, or the orders of the
    asset asked for. *)
Inductive OpenOrders : Type :=
| AllOpenOrders (by_asset : list (Asset.t * list Order.t))
| AssetOpenOrders (orders : list Order.t).

(** The methods of [self.exchange] that [ExchangeTradingAlgorithm]
    calls. The exchange object is a state [X]; a call returns the state
    it leaves behind and its value or the exception it raised. *)
Module Connector.
Class t (X : Type) : Type := {
  portfolio : X -> Portfolio.t;
  update_portfolio : X -> X * result unit;
  check_open_orders : X -> X * result (list Transaction.t);
  order : Asset.t -> Z -> option Price -> option Price ->
          option ExecutionStyle -> X -> X * result (option string);
  get_open_orders : option Asset.t -> X -> X * result OpenOrders;
  get_order : string -> X -> X * result Order.t;
  cancel_order : string -> X -> X * result (option string)
}.
End Connector.

(* ===================================================================== *)
(** ** algorithm_exchange.py: ExchangeTradingAlgorithm *)
(* ===================================================================== *)

(** One record of [minute_perfs]: the merged performance dict, with its
    [period_close] entry kept apart from the other columns. *)
Record Snapshot : Type := mkSnapshot {
  period_close : Timestamp;
  metrics : list (string * Q)
}.

(** [perf_tracker.to_dict('minute')]. *)
Record PerfDict : Type := mkPerfDict {
  minute_perf : Snapshot;
  cumulative_risk_metrics : list (string * Q)
}.

(** The performance tracker, as far as the algorithm feeds it. *)
Record PerfTracker : Type := mkPerfTracker {
  processed_orders : list Order.t;
  processed_transactions : list Transaction.t
}.

(** The frame handed to [analyze]: one row per snapshot, indexed by
    [period_close], that column dropped. *)
Definition Report : Type := list (Timestamp * list (string * Q)).

Inductive LogRecord : Type :=
| AttemptFailed (operation : string) (attempt_index : Z) (error : string)
| PerformanceFailed (e : exn)
| Info (msg : string).

(** The market data handed to [handle_data]; only passed on. *)
Definition BarData : Type := Timestamp.

Record Algo (X : Type) : Type := mkAlgo {
  exchange : X;
  minute_perfs : list Snapshot;
  is_running : bool;
  retry_check_open_orders : Z;
  retry_update_portfolio : Z;
  retry_get_open_orders : Z;
  retry_order : Z;
  retry_delay : Z;
  perf_tracker : PerfTracker;
  in_before_trading_start : bool;
  slept : Z;
  log : list LogRecord;
  analyzed : list Report
}.
Arguments mkAlgo {X}.
Arguments exchange {X}.
Arguments minute_perfs {X}.
Arguments is_running {X}.
Arguments retry_check_open_orders {X}.
Arguments retry_update_portfolio {X}.
Arguments retry_get_open_orders {X}.
Arguments retry_order {X}.
Arguments retry_delay {X}.
Arguments perf_tracker {X}.
Arguments in_before_trading_start {X}.
Arguments slept {X}.
Arguments log {X}.
Arguments analyzed {X}.

(** [__init__]: the defaults of a fresh algorithm. *)
Definition init {X : Type} (exchange : X) : Algo X :=
  {| exchange := exchange;
     minute_perfs := [];
     is_running := true;
     retry_check_open_orders := 5;
     retry_update_portfolio := 5;
     retry_get_open_orders := 5;
     retry_order := 1;
     retry_delay := 5;
     perf_tracker := mkPerfTracker [] [];
     in_before_trading_start := false;
     slept := 0;
     log := [];
     analyzed := [] |}.

(** Assignments to one attribute of [self]. *)
Definition set_exchange {X : Type} (x : X) (a : Algo X) : Algo X :=
  mkAlgo x (minute_perfs a) (is_running a) (retry_check_open_orders a)
    (retry_update_portfolio a) (retry_get_open_orders a) (retry_order a)
    (retry_delay a) (perf_tracker a) (in_before_trading_start a) (slept a)
    (log a) (analyzed a).

Definition set_minute_perfs {X : Type} (l : list Snapshot) (a : Algo X) : Algo X :=
  mkAlgo (exchange a) l (is_running a) (retry_check_open_orders a)
    (retry_update_portfolio a) (retry_get_open_orders a) (retry_order a)
    (retry_delay a) (perf_tracker a) (in_before_trading_start a) (slept a)
    (log a) (analyzed a).

Definition set_is_running {X : Type} (b : bool) (a : Algo X) : Algo X :=
  mkAlgo (exchange a) (minute_perfs a) b (retry_check_open_orders a)
    (retry_update_portfolio a) (retry_get_open_orders a) (retry_order a)
    (retry_delay a) (perf_tracker a) (in_before_trading_start a) (slept a)
    (log a) (analyzed a).

Definition set_perf_tracker {X : Type} (p : PerfTracker) (a : Algo X) : Algo X :=
  mkAlgo (exchange a) (minute_perfs a) (is_running a) (retry_check_open_orders a)
    (retry_update_portfolio a) (retry_get_open_orders a) (retry_order a)
    (retry_delay a) p (in_before_trading_start a) (slept a)
    (log a) (analyzed a).

(** [sleep(self.retry_delay)]: the time spent waiting adds up. *)
Definition sleep {X : Type} (a : Algo X) : Algo X :=
  mkAlgo (exchange a) (minute_perfs a) (is_running a) (retry_check_open_orders a)
    (retry_update_portfolio a) (retry_get_open_orders a) (retry_order a)
    (retry_delay a) (perf_tracker a) (in_before_trading_start a)
    (slept a + retry_delay a) (log a) (analyzed a).

(** [log.warn(...)], [log.info(...)]. *)
Definition log_record {X : Type} (r : LogRecord) (a : Algo X) : Algo X :=
  mkAlgo (exchange a) (minute_perfs a) (is_running a) (retry_check_open_orders a)
    (retry_update_portfolio a) (retry_get_open_orders a) (retry_order a)
    (retry_delay a) (perf_tracker a) (in_before_trading_start a) (slept a)
    (log a ++ [r]) (analyzed a).

(** [self.analyze(stats)]. *)
Definition analyze {X : Type} (stats : Report) (a : Algo X) : Algo X :=
  mkAlgo (exchange a) (minute_perfs a) (is_running a) (retry_check_open_orders a)
    (retry_update_portfolio a) (retry_get_open_orders a) (retry_order a)
    (retry_delay a) (perf_tracker a) (in_before_trading_start a) (slept a)
    (log a) (analyzed a ++ [stats]).

(** The collaborators inherited from [TradingAlgorithm] or handed in by
    the user: the strategy callback, the account controls, the
    performance computation ([update_performance] then [to_dict]) and
    [_calculate_order]. *)
Record Collaborators (X : Type) : Type := mkCollaborators {
  _handle_data : option (Algo X -> BarData -> Algo X * result unit);
  validate_account_controls : Algo X -> result unit;
  to_dict : PerfTracker -> result PerfDict;
  _calculate_order : Asset.t -> Z -> option Price -> option Price ->
                     option ExecutionStyle -> result (Z * ExecutionStyle)
}.
Arguments _handle_data {X}.
Arguments validate_account_controls {X}.
Arguments to_dict {X}.
Arguments _calculate_order {X}.

Section Retrying.

Context {X : Type} `{Connector.t X}.

(** [_update_portfolio]: the value of the recursive call is dropped,
    the method returns [None] on every path that returns. *)
Equations? _update_portfolio (a : Algo X) (attempt_index : Z)
  : Algo X * result unit
  by wf (Z.to_nat (retry_update_portfolio a - attempt_index)) lt :=
_update_portfolio a attempt_index :=
  match Connector.update_portfolio (exchange a) with
  | (x, Ok _) => (set_exchange x a, Ok tt)
  | (x, Raise e) =>
      match as_request_error e with
      | None => (set_exchange x a, Raise e)
      | Some error =>
          let a1 := log_record (AttemptFailed "update portfolio" attempt_index error)
                      (set_exchange x a) in
          if Z_lt_dec attempt_index (retry_update_portfolio a)
          then
            match _update_portfolio (sleep a1) (attempt_index + 1) with
            | (a2, Ok _) => (a2, Ok tt)
            | (a2, Raise e') => (a2, Raise e')
            end
          else (a1, Ok tt)
      end
  end.
Proof. simpl. lia. Qed.

(** [_check_open_orders]: the transactions, or [None] once the attempts
    are used up. *)
Equations? _check_open_orders (a : Algo X) (attempt_index : Z)
  : Algo X * result (option (list Transaction.t))
  by wf (Z.to_nat (retry_check_open_orders a - attempt_index)) lt :=
_check_open_orders a attempt_index :=
  match Connector.check_open_orders (exchange a) with
  | (x, Ok transactions) => (set_exchange x a, Ok (Some transactions))
  | (x, Raise e) =>
      match as_request_error e with
      | None => (set_exchange x a, Raise e)
      | Some error =>
          let a1 := log_record (AttemptFailed "check open orders" attempt_index error)
                      (set_exchange x a) in
          if Z_lt_dec attempt_index (retry_check_open_orders a)
          then _check_open_orders (sleep a1) (attempt_index + 1)
          else (a1, Ok None)
      end
  end.
Proof. simpl. lia. Qed.

(** [_order]: the order id the exchange returned, or [None] once the
    attempts are used up. *)
Equations? _order (a : Algo X) (asset : Asset.t) (amount : Z)
    (limit_price stop_price : option Price) (style : option ExecutionStyle)
    (attempt_index : Z)
  : Algo X * result (option string)
  by wf (Z.to_nat (retry_order a - attempt_index)) lt :=
_order a asset amount limit_price stop_price style attempt_index :=
  match Connector.order asset amount limit_price stop_price style (exchange a) with
  | (x, Ok order_id) => (set_exchange x a, Ok order_id)
  | (x, Raise e) =>
      match as_request_error e with
      | None => (set_exchange x a, Raise e)
      | Some error =>
          let a1 := log_record (AttemptFailed "order" attempt_index error)
                      (set_exchange x a) in
          if Z_lt_dec attempt_index (retry_order a)
          then _order (sleep a1) asset amount limit_price stop_price style
                 (attempt_index + 1)
          else (a1, Ok None)
      end
  end.
Proof. simpl. lia. Qed.

(** [_get_open_orders]: the listing, or [None] once the attempts are
    used up. *)
Equations? _get_open_orders (a : Algo X) (asset : option Asset.t)
    (attempt_index : Z)
  : Algo X * result (option OpenOrders)
  by wf (Z.to_nat (retry_get_open_orders a - attempt_index)) lt :=
_get_open_orders a asset attempt_index :=
  match Connector.get_open_orders asset (exchange a) with
  | (x, Ok open_orders) => (set_exchange x a, Ok (Some open_orders))
  | (x, Raise e) =>
      match as_request_error e with
      | None => (set_exchange x a, Raise e)
      | Some error =>
          let a1 := log_record (AttemptFailed "open orders" attempt_index error)
                      (set_exchange x a) in
          if Z_lt_dec attempt_index (retry_get_open_orders a)
          then _get_open_orders (sleep a1) asset (attempt_index + 1)
          else (a1, Ok None)
      end
  end.
Proof. simpl. lia. Qed.

End Retrying.

Section Algorithm.

Context {X : Type} `{Connector.t X}.
Variable collaborators : Collaborators X.

(** [updated_portfolio], behind the [portfolio] property. *)
Definition updated_portfolio (a : Algo X) : Portfolio.t :=
  Connector.portfolio (exchange a).

(** [self.perf_tracker.process_transaction(transaction)] *)
Definition process_transaction (transaction : Transaction.t) (a : Algo X) : Algo X :=
  set_perf_tracker
    (mkPerfTracker (processed_orders (perf_tracker a))
       (processed_transactions (perf_tracker a) ++ [transaction])) a.

(** [self.perf_tracker.process_order(order)] *)
Definition process_order (order : Order.t) (a : Algo X) : Algo X :=
  set_perf_tracker
    (mkPerfTracker (processed_orders (perf_tracker a) ++ [order])
       (processed_transactions (perf_tracker a))) a.

(** [minute_perf.update(perf_dict['cumulative_risk_metrics'])] *)
Definition merge_metrics (perf_dict : PerfDict) : Snapshot :=
  {| period_close := period_close (minute_perf perf_dict);
     metrics := fold_left (fun d kv => dict_set kv.1 kv.2 d)
                  (cumulative_risk_metrics perf_dict)
                  (metrics (minute_perf perf_dict)) |}.

(** The statements of [handle_data] after the [is_running] test, in
    order. *)
Definition sync_portfolio_step (a : Algo X) : Algo X * result unit :=
  _update_portfolio a 0.

(** [transactions = self._check_open_orders()] and the loop over them;
    iterating over [None] is a [TypeError]. *)
Definition reconcile_step (a : Algo X) : Algo X * result unit :=
  match _check_open_orders a 0 with
  | (a1, Raise e) => (a1, Raise e)
  | (a1, Ok None) => (a1, Raise TypeError)
  | (a1, Ok (Some transactions)) =>
      (fold_left (fun s transaction => process_transaction transaction s)
         transactions a1, Ok tt)
  end.

Definition strategy_step (data : BarData) (a : Algo X) : Algo X * result unit :=
  match _handle_data collaborators with
  | Some callback => callback a data
  | None => (a, Ok tt)
  end.

Definition account_controls_step (a : Algo X) : Algo X * result unit :=
  (a, validate_account_controls collaborators a).

(** The [try] block: an [Exception] is logged and swallowed. *)
Definition performance_step (a : Algo X) : Algo X * result unit :=
  match to_dict collaborators (perf_tracker a) with
  | Ok perf_dict =>
      (set_minute_perfs (minute_perfs a ++ [merge_metrics perf_dict]) a, Ok tt)
  | Raise e =>
      if is_Exception e then (log_record (PerformanceFailed e) a, Ok tt)
      else (a, Raise e)
  end.

Definition handle_data_steps (data : BarData)
    : list (Algo X -> Algo X * result unit) :=
  [ sync_portfolio_step; reconcile_step; strategy_step data;
    account_controls_step; performance_step ].

(** Statements in sequence: the first exception ends the run. *)
Fixpoint run_steps (steps : list (Algo X -> Algo X * result unit)) (a : Algo X)
    : Algo X * result unit :=
  match steps with
  | [] => (a, Ok tt)
  | step :: rest =>
      match step a with
      | (a1, Ok _) => run_steps rest a1
      | (a1, Raise e) => (a1, Raise e)
      end
  end.

Definition handle_data (a : Algo X) (data : BarData) : Algo X * result unit :=
  if negb (is_running a) then (a, Ok tt)
  else run_steps (handle_data_steps data) a.

(** Modelled from the spec: the decorator
    [disallowed_in_before_trading_start] is not part of the sources at
    hand; during the pre-session phase the call fails with the exception
    the decorator was given, before the method body runs. *)
Definition disallowed_in_before_trading_start {A : Type} (exception : exn)
    (method : Algo X -> Algo X * result A) (a : Algo X) : Algo X * result A :=
  if in_before_trading_start a then (a, Raise exception) else method a.

(** [self.portfolio.open_orders[order_id]]; [None] is no key of the
    mapping. *)
Definition open_orders_getitem (portfolio : Portfolio.t) (order_id : option string)
    : result Order.t :=
  match order_id with
  | None => Raise KeyError
  | Some k =>
      match Portfolio.open_orders portfolio !! k with
      | Some order => Ok order
      | None => Raise KeyError
      end
  end.

(** The body of [order]. *)
Definition order_body (asset : Asset.t) (amount : Z)
    (limit_price stop_price : option Price) (style : option ExecutionStyle)
    (a : Algo X) : Algo X * result Order.t :=
  match _calculate_order collaborators asset amount limit_price stop_price style with
  | Raise e => (a, Raise e)
  | Ok (amount', style') =>
      match _order a asset amount' limit_price stop_price (Some style') 0 with
      | (a1, Raise e) => (a1, Raise e)
      | (a1, Ok order_id) =>
          match open_orders_getitem (updated_portfolio a1) order_id with
          | Raise e => (a1, Raise e)
          | Ok order => (process_order order a1, Ok order)
          end
      end
  end.

Definition order (a : Algo X) (asset : Asset.t) (amount : Z)
    (limit_price stop_price : option Price) (style : option ExecutionStyle)
    : Algo X * result Order.t :=
  disallowed_in_before_trading_start OrderInBeforeTradingStart
    (order_body asset amount limit_price stop_price style) a.

Definition get_open_orders (a : Algo X) (asset : option Asset.t)
    : Algo X * result (option OpenOrders) :=
  _get_open_orders a asset 0.

Definition get_order (a : Algo X) (order_id : string) : Algo X * result Order.t :=
  match Connector.get_order order_id (exchange a) with
  | (x, r) => (set_exchange x a, r)
  end.

(** The argument of [cancel_order]: an id or an [Order] object. *)
Inductive OrderParam : Type :=
| OrderId (order_id : string)
| OrderObject (order : Order.t).

(** [cancel_order]: whatever the exchange returns is dropped. *)
Definition cancel_order (a : Algo X) (order_param : OrderParam)
    : Algo X * result unit :=
  let order_id :=
    match order_param with
    | OrderObject order => Order.id order
    | OrderId order_id => order_id
    end in
  match Connector.cancel_order order_id (exchange a) with
  | (x, Ok _) => (set_exchange x a, Ok tt)
  | (x, Raise e) => (set_exchange x a, Raise e)
  end.

(** [pd.DataFrame(self.minute_perfs)] followed by
    [set_index('period_close', drop=True)]: a frame built from no
    record has no such column. *)
Definition stats_frame (minute_perfs : list Snapshot) : result Report :=
  match minute_perfs with
  | [] => Raise KeyError
  | _ => Ok (map (fun s => (period_close s, metrics s)) minute_perfs)
  end.

(** [signal_handler]; [sys.exit(0)] raises [SystemExit]. *)
Definition signal_handler (a : Algo X) : Algo X * result unit :=
  let a1 := log_record (Info "You pressed Ctrl+C!") (set_is_running false a) in
  match stats_frame (minute_perfs a1) with
  | Raise e => (a1, Raise e)
  | Ok stats => (analyze stats a1, Raise (SystemExit 0))
  end.

(** The interrupt arrives while a tick is being handled, once [n] of its
    statements are done: the handler runs there, in the same thread, and
    what it raises unwinds the tick. *)
Fixpoint run_steps_interrupted (n : nat)
    (steps : list (Algo X -> Algo X * result unit)) (a : Algo X)
    : Algo X * result unit :=
  match n, steps with
  | O, _ =>
      match signal_handler a with
      | (a1, Ok _) => run_steps steps a1
      | (a1, Raise e) => (a1, Raise e)
      end
  | S _, [] => (a, Ok tt)
  | S n', step :: rest =>
      match step a with
      | (a1, Ok _) => run_steps_interrupted n' rest a1
      | (a1, Raise e) => (a1, Raise e)
      end
  end.

Definition handle_data_interrupted (n : nat) (a : Algo X) (data : BarData)
    : Algo X * result unit :=
  if negb (is_running a) then (a, Ok tt)
  else run_steps_interrupted n (handle_data_steps data) a.

End Algorithm.

(** [n] calls of [op] in a row, starting in [x], each raise an
    [ExchangeRequestError]; [x'] is the exchange after the last. *)
Inductive request_errors {X A : Type} (op : X -> X * result A)
    : nat -> X -> X -> Prop :=
| request_errors_O x : request_errors op 0 x x
| request_errors_S n x x1 x' error :
    op x = (x1, Raise (ExchangeRequestError error)) ->
    request_errors op n x1 x' ->
    request_errors op (S n) x x'.

(** [a'] differs from [a] in the exchange, the time slept and the log
    at most. *)
Definition only_effects {X : Type} (a a' : Algo X) : Prop :=
  minute_perfs a' = minute_perfs a /\
  is_running a' = is_running a /\
  retry_check_open_orders a' = retry_check_open_orders a /\
  retry_update_portfolio a' = retry_update_portfolio a /\
  retry_get_open_orders a' = retry_get_open_orders a /\
  retry_order a' = retry_order a /\
  retry_delay a' = retry_delay a /\
  perf_tracker a' = perf_tracker a /\
  in_before_trading_start a' = in_before_trading_start a /\
  analyzed a' = analyzed a.

(** What holds of a wrapper's outcome [r], started on [a] at attempt
    [i] with budget [b]: only exchange, log and time slept may differ;
    no request error is raised; the time slept grew by at most
    [max 0 (b - i)] delays. *)
Definition absorbed {X A : Type} (a : Algo X) (b i : Z) (r : Algo X * result A)
    : Prop :=
  only_effects a r.1 /\
  (forall error, r.2 <> Raise (ExchangeRequestError error)) /\
  (0 <= retry_delay a ->
   slept a <= slept r.1 <= slept a + Z.max 0 (b - i) * retry_delay a).

(* ===================================================================== *)
(** ** Sample inputs *)
(* ===================================================================== *)

(** A family of pairwise different symbols: [n] times the letter a. *)
Fixpoint unary_symbol (n : nat) : string :=
  match n with
  | O => EmptyString
  | S n' => String "a" (unary_symbol n')
  end.

(** A decoded [assets_json] whose two keys carry the same pair symbol,
    once in upper case. *)
Definition colliding_json : list (string * Exchange.AssetJson) :=
  [ ("btcusd", Exchange.mkJson "btc_usd" "2010-01-01");
    ("tBTCUSD", Exchange.mkJson "BTC_USD" "2013-06-01") ].

Definition sample_hash (s : string) : Z := Z.of_nat (String.length s) - 4000.
Definition sample_to_datetime (s : string) : Timestamp := Z.of_nat (String.length s).

Definition colliding_assets : list (string * Asset.t) :=
  Exchange.load_assets sample_hash sample_to_datetime 1500000000
    (Some "bitfinex") colliding_json [].

(** The scenario of the specification: order O1 for two units of
    btc_usd, executed at 100.5 with a commission of 0.1. *)
Definition btc_usd : Asset.t :=
  {| Asset.sid := 4242; Asset.exchange := Some "bitfinex";
     Asset.end_date := 1518000000; Asset.symbol := "btc_usd";
     Asset.start_date := 1262304000 |}.

Definition sample_order (order_id : string) (status : ORDER_STATUS) : Order.t :=
  {| Order.id := order_id; Order.asset := btc_usd; Order.amount := 2;
     Order.limit := None; Order.stop := None; Order.status := status;
     Order.dt := 1500000000; Order.executed_price := (201 # 2)%Q;
     Order.commission := (1 # 10)%Q |}.

(** A connector that reports every order in the given status. *)
Definition sample_remote (status : ORDER_STATUS) (order_id : string)
    : result Order.t :=
  Ok (sample_order order_id status).

Definition sample_portfolio : Portfolio.t :=
  {| Portfolio.open_orders := {[ "O1" := sample_order "O1" OPEN ]};
     Portfolio.positions := fun _ => 0 |}.

(** A scripted exchange: [order] and [check_open_orders] raise a request
    error as often as their counter says, then work; [order] books the
    order as O1, [check_open_orders] is the pass of the base class
    against a connector that reports every order FILLED. *)
Record Mock : Type := mkMock {
  mock_portfolio : Portfolio.t;
  order_errors : nat;
  check_errors : nat;
  cancelled : list string
}.

Definition mock_order (asset : Asset.t) (amount : Z)
    (limit_price stop_price : option Price) (style : option ExecutionStyle)
    (m : Mock) : Mock * result (option string) :=
  match order_errors m with
  | S n =>
      (mkMock (mock_portfolio m) n (check_errors m) (cancelled m),
       Raise (ExchangeRequestError "timeout"))
  | O =>
      let order :=
        {| Order.id := "O1"; Order.asset := asset; Order.amount := amount;
           Order.limit := limit_price; Order.stop := stop_price;
           Order.status := OPEN; Order.dt := 1500000000;
           Order.executed_price := 0%Q; Order.commission := 0%Q |} in
      (mkMock
         {| Portfolio.open_orders :=
              <[ "O1" := order ]> (Portfolio.open_orders (mock_portfolio m));
            Portfolio.positions := Portfolio.positions (mock_portfolio m) |}
         O (check_errors m) (cancelled m),
       Ok (Some "O1"))
  end.

Definition mock_check_open_orders (m : Mock) : Mock * result (list Transaction.t) :=
  match check_errors m with
  | S n =>
      (mkMock (mock_portfolio m) (order_errors m) n (cancelled m),
       Raise (ExchangeRequestError "timeout"))
  | O =>
      match Exchange.check_open_orders (sample_remote FILLED) 1500000060
              (mock_portfolio m) with
      | (p, r) => (mkMock p (order_errors m) O (cancelled m), r)
      end
  end.

Definition mock_cancel_order (order_id : string) (m : Mock)
    : Mock * result (option string) :=
  (mkMock (mock_portfolio m) (order_errors m) (check_errors m)
     (cancelled m ++ [order_id]), Ok (Some "cancelled")).

#[global]
Instance mock_connector : Connector.t Mock := {|
  Connector.portfolio := mock_portfolio;
  Connector.update_portfolio := fun m => (m, Ok tt);
  Connector.check_open_orders := mock_check_open_orders;
  Connector.order := mock_order;
  Connector.get_open_orders := fun asset m =>
    (m, Ok (AssetOpenOrders (map_to_list (Portfolio.open_orders (mock_portfolio m))).*2));
  Connector.get_order := fun order_id m => (m, sample_remote OPEN order_id);
  Connector.cancel_order := mock_cancel_order
|}.

Definition mock_collaborators : Collaborators Mock :=
  {| _handle_data := None;
     validate_account_controls := fun _ => Ok tt;
     to_dict := fun _ =>
       Ok {| minute_perf := mkSnapshot 1500000060 [("pnl", 0%Q)];
             cumulative_risk_metrics := [("sharpe", 1%Q)] |};
     _calculate_order := fun asset amount limit_price stop_price style =>
       Ok (amount, MarketOrder) |}.

(** A fresh algorithm on a scripted exchange with an empty portfolio. *)
Definition mock_algo (order_errors check_errors : nat) : Algo Mock :=
  init (mkMock {| Portfolio.open_orders := ∅; Portfolio.positions := fun _ => 0 |}
          order_errors check_errors []).

(** The same after one recorded tick. *)
Definition mock_algo_after_tick : Algo Mock :=
  set_minute_perfs [mkSnapshot 1500000000 [("pnl", 0%Q); ("sharpe", 1%Q)]]
    (mock_algo 0 0).

(** A decoded [assets_json] with two different pairs. *)
Definition sample_json : list (string * Exchange.AssetJson) :=
  [ ("btcusd", Exchange.mkJson "btc_usd" "2010-01-01");
    ("ethusd", Exchange.mkJson "eth_usd" "2015-08-01") ].

(** Subscripting an asset fails, as for a class without item access. *)
Definition sample_asset_getitem (asset : Asset.t) (key : string) : result string :=
  Raise TypeError.

(** Two open orders, and a connector that reports O1 FILLED while the
    request for any other order times out; [sample_remote_settled]
    answers the same once the connection is back: O1 FILLED, the others
    OPEN. *)
Definition sample_portfolio_two : Portfolio.t :=
  {| Portfolio.open_orders :=
       <[ "O2" := sample_order "O2" OPEN ]> {[ "O1" := sample_order "O1" OPEN ]};
     Portfolio.positions := fun _ => 0 |}.

Definition sample_remote_failing (order_id : string) : result Order.t :=
  if decide (order_id = "O1") then Ok (sample_order "O1" FILLED)
  else Raise (ExchangeRequestError "timeout").

Definition sample_remote_settled (order_id : string) : result Order.t :=
  if decide (order_id = "O1") then Ok (sample_order "O1" FILLED)
  else Ok (sample_order order_id OPEN).

(** An exchange whose [check_open_orders] is the pass of the base class,
    run against a scripted connector: each call uses up the next set of
    answers, and every order is reported OPEN once the script is over. *)
Record Replay : Type := mkReplay {
  replay_portfolio : Portfolio.t;
  replay_answers : list (string -> result Order.t);
  replay_cancelled : list string
}.

Definition replay_check_open_orders (r : Replay)
    : Replay * result (list Transaction.t) :=
  match replay_answers r with
  | [] =>
      match Exchange.check_open_orders (sample_remote OPEN) 1500000060
              (replay_portfolio r) with
      | (p, outcome) => (mkReplay p [] (replay_cancelled r), outcome)
      end
  | get_order :: rest =>
      match Exchange.check_open_orders get_order 1500000060 (replay_portfolio r) with
      | (p, outcome) => (mkReplay p rest (replay_cancelled r), outcome)
      end
  end.

#[global]
Instance replay_connector : Connector.t Replay := {|
  Connector.portfolio := replay_portfolio;
  Connector.update_portfolio := fun r => (r, Ok tt);
  Connector.check_open_orders := replay_check_open_orders;
  Connector.order := fun asset amount limit_price stop_price style r =>
    (r, Ok None);
  Connector.get_open_orders := fun asset r =>
    (r, Ok (AssetOpenOrders (map_to_list (Portfolio.open_orders (replay_portfolio r))).*2));
  Connector.get_order := fun order_id r => (r, sample_remote OPEN order_id);
  Connector.cancel_order := fun order_id r =>
    (mkReplay (replay_portfolio r) (replay_answers r)
       (replay_cancelled r ++ [order_id]), Ok (Some "cancelled"))
|}.

(** A fresh algorithm whose exchange loses the connection in the middle
    of the first pass and answers in full from the second on. *)
Definition replay_algo : Algo Replay :=
  init (mkReplay sample_portfolio_two
          [sample_remote_failing; sample_remote_settled] []).



(* ===================================================================== *)
(** * Properties *)
(* ===================================================================== *)

(** ** The asset registry *)

Section RegistryFacts.

Variable hash : string -> Z.
Variable to_datetime : string -> Timestamp.
Variable utcnow : Timestamp.
Variable name : option string.

Local Abbreviation make_asset := (Exchange.make_asset hash to_datetime utcnow name).
Local Abbreviation load_assets := (Exchange.load_assets hash to_datetime utcnow name).

Lemma asset_sid_range symbol : 0 <= Exchange.asset_sid hash symbol < 10000.
Proof.
  unfold Exchange.asset_sid.
  change (10 ^ 4) with 10000.
  apply Z.mod_pos_bound. lia.
Qed.

Lemma dict_set_In {V} key (value : V) d k v :
  In (k, v) (dict_set key value d) -> (k, v) = (key, value) \/ In (k, v) d.
Proof.
  induction d as [|[k0 v0] d IH]; simpl.
  - intros [H|[]]. left. congruence.
  - destruct (decide (k0 = key)) as [->|Hne]; simpl.
    + intros [H|H]; [left; congruence | right; right; exact H].
    + intros [H|H]; [right; left; exact H |].
      destruct (IH H) as [Heq|Hin]; [left; exact Heq | right; right; exact Hin].
Qed.

Lemma dict_get_set_eq {V} key (value : V) d :
  dict_get key (dict_set key value d) = Some value.
Proof.
  induction d as [|[k0 v0] d IH]; simpl.
  - rewrite decide_True by reflexivity. reflexivity.
  - destruct (decide (k0 = key)) as [->|Hne]; simpl.
    + rewrite decide_True by reflexivity. reflexivity.
    + rewrite decide_False by exact Hne. exact IH.
Qed.

Lemma dict_get_set_ne {V} key (value : V) d k :
  k <> key -> dict_get k (dict_set key value d) = dict_get k d.
Proof.
  intros Hk. induction d as [|[k0 v0] d IH]; simpl.
  - rewrite decide_False by congruence. reflexivity.
  - destruct (decide (k0 = key)) as [->|Hne]; simpl.
    + rewrite !decide_False by congruence. reflexivity.
    + destruct (decide (k0 = k)); [reflexivity | exact IH].
Qed.

(** Whatever the registry held before, an entry after [load_assets] is
    an old one or was built from a value of the decoded object. *)
Lemma load_assets_In assets_json : forall assets k a,
  In (k, a) (load_assets assets_json assets) ->
  In (k, a) assets \/ exists entry, In (k, entry) assets_json /\ a = make_asset entry.
Proof.
  induction assets_json as [|[key entry] rest IH]; simpl; intros assets k a Hin.
  - left. exact Hin.
  - destruct (IH _ _ _ Hin) as [Hold|(e & He & ->)].
    + destruct (dict_set_In _ _ _ _ _ Hold) as [Heq|Hin'].
      * right. exists entry. split; [left|]; congruence.
      * left. exact Hin'.
    + right. exists e. split; [right; exact He | reflexivity].
Qed.

Lemma load_assets_other_key assets_json : forall assets k,
  k ∉ assets_json.*1 ->
  dict_get k (load_assets assets_json assets) = dict_get k assets.
Proof.
  induction assets_json as [|[key e] rest IH]; simpl; intros assets k Hk.
  - reflexivity.
  - apply not_elem_of_cons in Hk as [Hne Hk].
    rewrite IH by exact Hk. apply dict_get_set_ne. exact Hne.
Qed.

(** With pairwise different keys, every value of the decoded object ends
    up in the registry under its key: nothing is rejected. *)
Lemma load_assets_get assets_json : forall assets k entry,
  NoDup (assets_json.*1) ->
  In (k, entry) assets_json ->
  dict_get k (load_assets assets_json assets) = Some (make_asset entry).
Proof.
  induction assets_json as [|[key e] rest IH]; simpl; intros assets k entry Hnd Hin.
  - destruct Hin.
  - apply NoDup_cons in Hnd as [Hfresh Hnd].
    destruct Hin as [Heq|Hin].
    + injection Heq as -> ->.
      rewrite load_assets_other_key by exact Hfresh.
      apply dict_get_set_eq.
    + apply IH; assumption.
Qed.

Lemma unary_symbol_length n : String.length (unary_symbol n) = n.
Proof. induction n as [|n IH]; simpl; [reflexivity | now rewrite IH]. Qed.

(** More symbols than ids: two of the first 10001 unary symbols share
    their id, whatever [hash] is. *)
Lemma asset_sid_collision :
  exists s1 s2, s1 <> s2 /\ Exchange.asset_sid hash s1 = Exchange.asset_sid hash s2.
Proof.
  destruct (nat_pigeonhole
              (fun i => Z.to_nat (Exchange.asset_sid hash (unary_symbol i)))
              (S (Z.to_nat 10000)) (Z.to_nat 10000))
    as (i1 & i2 & Hlt & Heq).
  - apply Nat.lt_succ_diag_r.
  - intros i _. pose proof (asset_sid_range (unary_symbol i)). lia.
  - exists (unary_symbol i1), (unary_symbol i2). split.
    + intros Hs. apply (f_equal String.length) in Hs.
      rewrite !unary_symbol_length in Hs. lia.
    + pose proof (asset_sid_range (unary_symbol i1)).
      pose proof (asset_sid_range (unary_symbol i2)).
      apply Z2Nat.inj; lia.
Qed.

(** C9. [load_assets] gives every asset the id
    [abs(hash(symbol)) mod 10^4], which lies in [0, 10000); two different
    symbols with the same id exist for every [hash], and the registry
    takes both without a check: both entries are there afterwards,
    carrying the same id. *)
Theorem load_assets_sid_range_and_collision :
  (forall assets_json k a,
      In (k, a) (load_assets assets_json []) ->
      Asset.sid a = (Z.abs (hash (Asset.symbol a)) mod 10 ^ 4) /\
      0 <= Asset.sid a < 10000) /\
  (exists s1 s2 a1 a2,
      s1 <> s2 /\
      (let assets :=
         load_assets [("k1", Exchange.mkJson s1 ""); ("k2", Exchange.mkJson s2 "")] [] in
       dict_get "k1" assets = Some a1 /\ dict_get "k2" assets = Some a2) /\
      Asset.symbol a1 = s1 /\ Asset.symbol a2 = s2 /\
      Asset.sid a1 = Asset.sid a2).
Proof.
  split.
  - intros assets_json k a Hin.
    destruct (load_assets_In _ _ _ _ Hin) as [[]|(entry & _ & ->)].
    simpl. split; [reflexivity | apply asset_sid_range].
  - destruct asset_sid_collision as (s1 & s2 & Hne & Hsid).
    exists s1, s2, (make_asset (Exchange.mkJson s1 "")),
      (make_asset (Exchange.mkJson s2 "")).
    split; [exact Hne|]. cbv zeta.
    repeat split; try reflexivity; try exact Hsid.
Qed.

End RegistryFacts.

(** *** Symbol lookup *)

Lemma lower_ascii_idempotent c : lower_ascii (lower_ascii c) = lower_ascii c.
Proof.
  destruct c as [[] [] [] [] [] [] [] []]; reflexivity.
Qed.

Lemma lower_idempotent s : lower (lower s) = lower s.
Proof.
  induction s as [|c s IH]; simpl; [reflexivity|].
  now rewrite lower_ascii_idempotent, IH.
Qed.

Lemma get_asset_loop_found entries symbol a :
  Exchange.get_asset_loop entries symbol (Some a) = Some a.
Proof. induction entries as [|[k b] rest IH]; simpl; [reflexivity | exact IH]. Qed.

Lemma get_asset_loop_no_match entries symbol :
  Exchange.no_match entries symbol -> Exchange.get_asset_loop entries symbol None = None.
Proof.
  induction entries as [|[k b] rest IH]; simpl; intros Hno; [reflexivity|].
  rewrite decide_False by (apply (Hno k); now left).
  apply IH. intros k' a' Hin. apply (Hno k'). now right.
Qed.

Lemma get_asset_loop_first pre k a post symbol :
  Exchange.no_match pre symbol ->
  lower (Asset.symbol a) = lower symbol ->
  Exchange.get_asset_loop (pre ++ (k, a) :: post) symbol None = Some a.
Proof.
  induction pre as [|[k0 b] pre IH]; simpl; intros Hno Hm.
  - rewrite decide_True by exact Hm. apply get_asset_loop_found.
  - rewrite decide_False by (apply (Hno k0); now left).
    apply IH; [|exact Hm]. intros k' a' Hin. apply (Hno k'). now right.
Qed.

Lemma get_asset_loop_query entries symbol symbol' : forall found,
  lower symbol = lower symbol' ->
  Exchange.get_asset_loop entries symbol found =
  Exchange.get_asset_loop entries symbol' found.
Proof.
  induction entries as [|[k b] rest IH]; simpl; intros found Heq; [reflexivity|].
  destruct found; [now apply IH|].
  rewrite Heq. destruct (decide _); now apply IH.
Qed.

(** C8, as the code has it. The comparison lower-cases both sides, so
    two queries that differ in case only find the same asset; the lookup
    raises [SymbolNotFound] when no entry matches; when entries match it
    returns the first of them in iteration order, whatever follows; and
    [load_assets] stores every value of the decoded object under its
    exchange symbol, equal pair symbols included. *)
Theorem get_asset_first_match_case_insensitive :
  (forall assets symbol symbol',
      lower symbol = lower symbol' ->
      Exchange.get_asset_loop assets symbol None =
      Exchange.get_asset_loop assets symbol' None) /\
  (forall assets symbol,
      Exchange.no_match assets symbol ->
      Exchange.get_asset assets symbol =
      Raise (SymbolNotFound ("Asset not found: " +:+ symbol))) /\
  (forall pre k a post symbol,
      Exchange.no_match pre symbol ->
      lower (Asset.symbol a) = lower symbol ->
      Exchange.get_asset (pre ++ (k, a) :: post) symbol = Ok a) /\
  (forall hash to_datetime utcnow name assets_json k entry,
      NoDup (assets_json.*1) ->
      In (k, entry) assets_json ->
      dict_get k (Exchange.load_assets hash to_datetime utcnow name assets_json [])
      = Some (Exchange.make_asset hash to_datetime utcnow name entry)).
Proof.
  repeat split.
  - intros assets symbol symbol' Heq. now apply get_asset_loop_query.
  - intros assets symbol Hno. unfold Exchange.get_asset.
    now rewrite get_asset_loop_no_match.
  - intros pre k a post symbol Hno Hm. unfold Exchange.get_asset.
    now rewrite get_asset_loop_first.
  - intros. now apply load_assets_get.
Qed.

(** The statement above at the sample registry: the upper-case query
    finds the first of the two colliding entries. *)
Lemma get_asset_first_match_witness :
  lower "BTC_USD" = lower "btc_usd" /\
  Exchange.no_match [] "BTC_USD" /\
  Exchange.get_asset colliding_assets "BTC_USD" =
  Exchange.get_asset colliding_assets "btc_usd" /\
  exists a, Exchange.get_asset colliding_assets "BTC_USD" = Ok a /\
            Asset.symbol a = "btc_usd" /\
            dict_get "tBTCUSD" colliding_assets <> None.
Proof.
  destruct get_asset_first_match_case_insensitive as (Hquery & _ & Hfirst & Hload).
  assert (Hno : Exchange.no_match [] "BTC_USD") by (intros k a []).
  split; [reflexivity|]. split; [exact Hno|]. split.
  - unfold Exchange.get_asset.
    rewrite (Hquery colliding_assets "BTC_USD" "btc_usd"); reflexivity.
  - eexists. split.
    + apply (Hfirst [] "btcusd" _ [("tBTCUSD", _)] "BTC_USD" Hno). reflexivity.
    + split; [reflexivity|]. unfold colliding_assets.
      rewrite (Hload sample_hash sample_to_datetime 1500000000 (Some "bitfinex")
                 colliding_json "tBTCUSD" (Exchange.mkJson "BTC_USD" "2013-06-01")).
      * discriminate.
      * apply (bool_decide_unpack _). vm_compute. exact I.
      * right. left. reflexivity.
Defined.

(** C8 as stated does not hold: the sample object has two keys whose
    pair symbols collide; loading it rejects nothing, both assets match
    the query, and the lookup returns one of them instead of failing. *)
Lemma get_asset_collision_goes_unreported :
  exists a1 a2,
    dict_get "btcusd" colliding_assets = Some a1 /\
    dict_get "tBTCUSD" colliding_assets = Some a2 /\
    lower (Asset.symbol a1) = lower "btc_usd" /\
    lower (Asset.symbol a2) = lower "btc_usd" /\
    Exchange.get_asset colliding_assets "btc_usd" = Ok a1.
Proof.
  do 2 eexists. repeat split; reflexivity.
Qed.

(* ===================================================================== *)
(** ** Reconciliation of the open orders *)
(* ===================================================================== *)

Section PassFacts.

Variable get_order : string -> result Order.t.
Variable utcnow : Timestamp.
Hypothesis Hids : Exchange.answers_by_id get_order.

Local Abbreviation loop := (Exchange.check_open_orders_loop get_order utcnow).
Local Abbreviation fill_of := (Exchange.fill_of get_order utcnow).
Local Abbreviation filled_amount := (Exchange.filled_amount get_order).

Local Abbreviation leaves_open_set := (Exchange.leaves_open_set get_order).

Lemma loop_spec ids : forall portfolio transactions portfolio' transactions',
  loop ids portfolio transactions = (portfolio', Ok transactions') ->
  transactions' = transactions ++ flat_map fill_of ids /\
  (forall k, k ∈ ids -> exists order, get_order k = Ok order) /\
  (forall k, k ∈ ids -> leaves_open_set k ->
             Portfolio.open_orders portfolio' !! k = None) /\
  (forall k, ~ (k ∈ ids /\ leaves_open_set k) ->
             Portfolio.open_orders portfolio' !! k =
             Portfolio.open_orders portfolio !! k) /\
  (forall a, Portfolio.positions portfolio' a =
             Portfolio.positions portfolio a + filled_amount a ids).
Proof.
  induction ids as [|id ids IH]; simpl; intros p txs p' txs' Hrun.
  - injection Hrun as <- <-. rewrite app_nil_r.
    repeat split; try reflexivity; try lia.
    + intros k Hk. inversion Hk.
    + intros k Hk. inversion Hk.
  - unfold Exchange.fill_of at 1.
    destruct (get_order id) as [order|e] eqn:Hget; [|discriminate].
    pose proof (Hids _ _ Hget) as Hid.
    assert (Hstep : forall q tx,
      loop ids q (txs ++ tx) = (p', Ok txs') ->
      (forall k, k <> id -> Portfolio.open_orders q !! k = Portfolio.open_orders p !! k) ->
      (leaves_open_set id -> Portfolio.open_orders q !! id = None) ->
      (~ leaves_open_set id -> q = p) ->
      (forall a, Portfolio.positions q a + filled_amount a ids =
                 Portfolio.positions p a +
                 match Order.status order with
                 | FILLED => if decide (a = Order.asset order)
                             then Order.amount order + filled_amount a ids
                             else filled_amount a ids
                 | _ => filled_amount a ids
                 end) ->
      txs' = txs ++ tx ++ flat_map fill_of ids /\
      (forall k, k ∈ id :: ids -> exists order, get_order k = Ok order) /\
      (forall k, k ∈ id :: ids -> leaves_open_set k ->
                 Portfolio.open_orders p' !! k = None) /\
      (forall k, ~ (k ∈ id :: ids /\ leaves_open_set k) ->
                 Portfolio.open_orders p' !! k = Portfolio.open_orders p !! k) /\
      (forall a, Portfolio.positions p' a =
                 Portfolio.positions p a +
                 match Order.status order with
                 | FILLED => if decide (a = Order.asset order)
                             then Order.amount order + filled_amount a ids
                             else filled_amount a ids
                 | _ => filled_amount a ids
                 end)).
    { intros q tx Hq Hother Hgone Hsame Hpos.
      destruct (IH _ _ _ _ Hq) as (Htx & Hans & Hrem & Hkeep & Hp).
      split; [now rewrite Htx, app_assoc|].
      split.
      { intros k [->|Hk]%elem_of_cons; [eauto | now apply Hans]. }
      split.
      { intros k Hk Hleave.
        destruct (decide (k ∈ ids)) as [Hin|Hnin]; [now apply Hrem|].
        apply elem_of_cons in Hk as [->|Hk]; [|contradiction].
        rewrite Hkeep by tauto. now apply Hgone. }
      split.
      { intros k Hk.
        rewrite Hkeep by (intros [Hin Hl]; apply Hk; split; [now right | exact Hl]).
        destruct (decide (k = id)) as [->|Hne]; [|now apply Hother].
        rewrite Hsame; [reflexivity|].
        intros Hl. apply Hk. split; [now left | exact Hl]. }
      intros a. rewrite Hp. apply Hpos. }
    destruct (Order.status order) eqn:Hst.
    + (* OPEN *)
      rewrite <- (app_nil_r txs) in Hrun.
      apply (Hstep _ [] Hrun); try reflexivity.
      intros (o & Ho & [Hs|Hs]); congruence.
    + (* FILLED *)
      apply (Hstep _ [Exchange.make_transaction utcnow order] Hrun).
      * intros k Hne. simpl. rewrite Hid. now apply lookup_delete_ne.
      * intros _. simpl. rewrite Hid. apply lookup_delete_eq.
      * intros Hn. exfalso. apply Hn. exists order. tauto.
      * intros a. simpl. destruct (decide (a = Order.asset order)); lia.
    + (* CANCELLED *)
      rewrite <- (app_nil_r txs) in Hrun.
      apply (Hstep _ [] Hrun).
      * intros k Hne. simpl. rewrite Hid. now apply lookup_delete_ne.
      * intros _. simpl. rewrite Hid. apply lookup_delete_eq.
      * intros Hn. exfalso. apply Hn. exists order. tauto.
      * intros a. reflexivity.
    + (* REJECTED *)
      rewrite <- (app_nil_r txs) in Hrun.
      apply (Hstep _ [] Hrun); try reflexivity.
      intros (o & Ho & [Hs|Hs]); congruence.
Qed.

Lemma order_ids_elem portfolio k :
  k ∈ Exchange.order_ids portfolio <->
  is_Some (Portfolio.open_orders portfolio !! k).
Proof.
  unfold Exchange.order_ids. rewrite list_elem_of_fmap. split.
  - intros ([k' o] & -> & Hin). apply elem_of_map_to_list in Hin. eauto.
  - intros [o Ho]. exists (k, o). split; [reflexivity|].
    now apply elem_of_map_to_list.
Qed.

Lemma order_ids_NoDup portfolio : NoDup (Exchange.order_ids portfolio).
Proof. apply NoDup_fst_map_to_list. Qed.

Lemma check_open_orders_unfold portfolio :
  Exchange.check_open_orders get_order utcnow portfolio =
  loop (Exchange.order_ids portfolio) portfolio [].
Proof.
  unfold Exchange.check_open_orders.
  destruct (decide _) as [Hsize|]; [|reflexivity].
  apply map_size_empty_iff in Hsize.
  unfold Exchange.order_ids. rewrite Hsize, map_to_list_empty. reflexivity.
Qed.

Lemma fill_of_order_id k t : t ∈ fill_of k -> Transaction.order_id t = k.
Proof.
  unfold Exchange.fill_of.
  destruct (get_order k) as [order|e] eqn:Hget; [|intros H; inversion H].
  destruct (Order.status order); intros H; try (now inversion H).
  apply list_elem_of_singleton in H as ->. simpl. now apply Hids.
Qed.

Lemma transactions_of_all k l :
  (forall t, t ∈ l -> Transaction.order_id t = k) ->
  Exchange.transactions_of k l = l.
Proof.
  unfold Exchange.transactions_of.
  induction l as [|t l IH]; intros Hall; [reflexivity|].
  rewrite filter_cons_True by (apply Hall; now left).
  f_equal. apply IH. intros t' Ht'. apply Hall. now right.
Qed.

Lemma transactions_of_none k l :
  (forall t, t ∈ l -> Transaction.order_id t <> k) ->
  Exchange.transactions_of k l = [].
Proof.
  unfold Exchange.transactions_of.
  induction l as [|t l IH]; intros Hall; [reflexivity|].
  rewrite filter_cons_False by (apply Hall; now left).
  apply IH. intros t' Ht'. apply Hall. now right.
Qed.

Lemma transactions_of_fill_same k :
  Exchange.transactions_of k (fill_of k) = fill_of k.
Proof. apply transactions_of_all. intros t. apply fill_of_order_id. Qed.

Lemma transactions_of_fill_other k id :
  k <> id -> Exchange.transactions_of k (fill_of id) = [].
Proof.
  intros Hne. apply transactions_of_none. intros t Ht Heq.
  apply fill_of_order_id in Ht. congruence.
Qed.

Lemma transactions_of_fills k ids :
  NoDup ids ->
  Exchange.transactions_of k (flat_map fill_of ids) =
  if decide (k ∈ ids) then fill_of k else [].
Proof.
  induction ids as [|id ids IH]; intros Hnd.
  - destruct (decide (k ∈ [])) as [Hin|_]; [inversion Hin | reflexivity].
  - apply NoDup_cons in Hnd as [Hfresh Hnd]. specialize (IH Hnd).
    cbn [flat_map].
    unfold Exchange.transactions_of in *. rewrite filter_app, IH.
    fold (Exchange.transactions_of k (fill_of id)).
    destruct (decide (k = id)) as [->|Hne].
    + rewrite transactions_of_fill_same.
      destruct (decide (id ∈ ids)) as [Hin|_]; [contradiction|].
      destruct (decide (id ∈ id :: ids)) as [_|Hnin].
      * apply app_nil_r.
      * exfalso. apply Hnin. now left.
    + rewrite transactions_of_fill_other by exact Hne.
      destruct (decide (k ∈ ids)) as [Hin|Hnin];
        destruct (decide (k ∈ id :: ids)) as [Hin'|Hnin']; try reflexivity.
      * exfalso. apply Hnin'. now right.
      * apply elem_of_cons in Hin' as [?|?]; contradiction.
Qed.

(** One completed pass, in terms of the open set it started from. *)
Lemma check_open_orders_spec portfolio portfolio' transactions :
  Exchange.check_open_orders get_order utcnow portfolio = (portfolio', Ok transactions) ->
  transactions = flat_map fill_of (Exchange.order_ids portfolio) /\
  (forall k, is_Some (Portfolio.open_orders portfolio !! k) ->
             exists order, get_order k = Ok order) /\
  (forall k, leaves_open_set k ->
             Portfolio.open_orders portfolio' !! k = None) /\
  (forall k, ~ leaves_open_set k ->
             Portfolio.open_orders portfolio' !! k =
             Portfolio.open_orders portfolio !! k) /\
  (forall a, Portfolio.positions portfolio' a =
             Portfolio.positions portfolio a +
             filled_amount a (Exchange.order_ids portfolio)).
Proof.
  rewrite check_open_orders_unfold. intros Hrun.
  destruct (loop_spec _ _ _ _ _ Hrun) as (Htx & Hans & Hrem & Hkeep & Hpos).
  split; [exact Htx|]. split.
  { intros k Hk. apply Hans. now apply order_ids_elem. }
  split.
  { intros k Hl.
    destruct (decide (k ∈ Exchange.order_ids portfolio)) as [Hin|Hnin].
    - now apply Hrem.
    - rewrite Hkeep by tauto.
      apply eq_None_not_Some. now rewrite <- order_ids_elem. }
  split; [|exact Hpos].
  intros k Hl. apply Hkeep. tauto.
Qed.

(** What a completed pass emits for one order. *)
Lemma check_open_orders_emits portfolio portfolio' transactions k :
  Exchange.check_open_orders get_order utcnow portfolio = (portfolio', Ok transactions) ->
  Exchange.transactions_of k transactions =
  if decide (is_Some (Portfolio.open_orders portfolio !! k)) then fill_of k else [].
Proof.
  intros Hrun.
  destruct (check_open_orders_spec _ _ _ Hrun) as (-> & _).
  rewrite transactions_of_fills by apply order_ids_NoDup.
  destruct (decide (k ∈ _)) as [Hin|Hnin].
  - rewrite decide_True by (now apply order_ids_elem). reflexivity.
  - rewrite decide_False; [reflexivity|]. now rewrite <- order_ids_elem.
Qed.

Lemma filled_amount_none a ids :
  (forall k order, k ∈ ids -> get_order k = Ok order ->
                   Order.asset order = a -> Order.status order <> FILLED) ->
  filled_amount a ids = 0.
Proof.
  induction ids as [|id ids IH]; simpl; intros Hnone; [reflexivity|].
  assert (IH' : filled_amount a ids = 0).
  { apply IH. intros k o Hk. apply Hnone. now right. }
  destruct (get_order id) as [order|e] eqn:Hget; [|exact IH'].
  destruct (Order.status order) eqn:Hst; try exact IH'.
  destruct (decide (a = Order.asset order)) as [->|Hne]; [|exact IH'].
  exfalso. apply (Hnone id order); [now left | exact Hget | reflexivity | exact Hst].
Qed.

Lemma filled_amount_split order ids :
  NoDup ids ->
  Order.id order ∈ ids ->
  get_order (Order.id order) = Ok order ->
  Order.status order = FILLED ->
  filled_amount (Order.asset order) ids =
  Order.amount order +
  filled_amount (Order.asset order) (filter (fun k => k <> Order.id order) ids).
Proof.
  intros Hnd Hin Hget Hst.
  induction ids as [|id ids IH]; [inversion Hin|].
  apply NoDup_cons in Hnd as [Hfresh Hnd].
  destruct (decide (id = Order.id order)) as [->|Hne].
  - rewrite filter_cons_False by (intros H; now apply H).
    simpl. rewrite Hget, Hst, decide_True by reflexivity.
    f_equal. clear IH Hin Hnd.
    induction ids as [|k ids IH]; [reflexivity|].
    apply not_elem_of_cons in Hfresh as [Hk Hfresh].
    rewrite filter_cons_True by congruence.
    simpl. rewrite (IH Hfresh). reflexivity.
  - apply elem_of_cons in Hin as [Heq|Hin]; [congruence|].
    rewrite filter_cons_True by exact Hne.
    simpl. rewrite (IH Hnd Hin).
    destruct (get_order id) as [o|e]; [|reflexivity].
    destruct (Order.status o); try reflexivity.
    destruct (decide (Order.asset order = Order.asset o)); lia.
Qed.

(** The order found FILLED: its one transaction, and its removal. *)
Lemma check_open_orders_filled_order portfolio portfolio' transactions local order :
  Exchange.check_open_orders get_order utcnow portfolio = (portfolio', Ok transactions) ->
  Portfolio.open_orders portfolio !! Order.id order = Some local ->
  get_order (Order.id order) = Ok order ->
  Order.status order = FILLED ->
  Exchange.transactions_of (Order.id order) transactions =
    [Exchange.make_transaction utcnow order] /\
  Portfolio.open_orders portfolio' !! Order.id order = None.
Proof.
  intros Hrun Hopen Hget Hst.
  pose proof (check_open_orders_emits _ _ _ (Order.id order) Hrun) as Hemit.
  destruct (check_open_orders_spec _ _ _ Hrun) as (_ & _ & Hrem & _).
  split.
  - rewrite Hemit, decide_True by eauto.
    unfold Exchange.fill_of. rewrite Hget, Hst. reflexivity.
  - apply Hrem. exists order. tauto.
Qed.

(** The order found FILLED by a pass that completes: its transaction,
    its removal, and the position of its asset. *)
Lemma check_open_orders_fill_completed portfolio portfolio' transactions local order :
  Exchange.check_open_orders get_order utcnow portfolio = (portfolio', Ok transactions) ->
  Portfolio.open_orders portfolio !! Order.id order = Some local ->
  get_order (Order.id order) = Ok order ->
  Order.status order = FILLED ->
  Exchange.transactions_of (Order.id order) transactions =
    [ {| Transaction.asset := Order.asset order;
         Transaction.amount := Order.amount order;
         Transaction.dt := utcnow;
         Transaction.price := Order.executed_price order;
         Transaction.order_id := Order.id order;
         Transaction.commission := Order.commission order |} ] /\
  Portfolio.open_orders portfolio' !! Order.id order = None /\
  Portfolio.positions portfolio' (Order.asset order) =
    Portfolio.positions portfolio (Order.asset order) + Order.amount order +
    filled_amount (Order.asset order)
      (filter (fun k => k <> Order.id order) (Exchange.order_ids portfolio)) /\
  ((forall k other, k <> Order.id order ->
        is_Some (Portfolio.open_orders portfolio !! k) ->
        get_order k = Ok other -> Order.asset other = Order.asset order ->
        Order.status other <> FILLED) ->
   Portfolio.positions portfolio' (Order.asset order) =
     Portfolio.positions portfolio (Order.asset order) + Order.amount order).
Proof.
  intros Hrun Hopen Hget Hst.
  destruct (check_open_orders_filled_order _ _ _ _ _ Hrun Hopen Hget Hst)
    as [Hemit Hgone].
  destruct (check_open_orders_spec _ _ _ Hrun) as (_ & _ & _ & _ & Hpos).
  assert (Hin : Order.id order ∈ Exchange.order_ids portfolio).
  { apply order_ids_elem. eauto. }
  assert (Hsum : Portfolio.positions portfolio' (Order.asset order) =
    Portfolio.positions portfolio (Order.asset order) + Order.amount order +
    filled_amount (Order.asset order)
      (filter (fun k => k <> Order.id order) (Exchange.order_ids portfolio))).
  { rewrite Hpos, (filled_amount_split order) by
      (try apply order_ids_NoDup; assumption). lia. }
  split; [exact Hemit|]. split; [exact Hgone|].
  split; [exact Hsum|].
  intros Hothers. rewrite Hsum, filled_amount_none; [lia|].
  intros k other [Hne Hk]%list_elem_of_filter Hgetk Hasset.
  apply (Hothers k other Hne); [now apply order_ids_elem | exact Hgetk | exact Hasset].
Qed.

(** A pass that raises got as far as the id the connector failed for:
    the portfolio is the one the loop over the ids before it leaves. *)
Lemma check_open_orders_loop_raise ids : forall portfolio transactions portfolio' e,
  loop ids portfolio transactions = (portfolio', Raise e) ->
  exists done k rest transactions',
    ids = done ++ k :: rest /\ get_order k = Raise e /\
    loop done portfolio transactions = (portfolio', Ok transactions').
Proof.
  induction ids as [|id ids IH]; simpl; intros p txs p' e Hrun; [discriminate|].
  destruct (get_order id) as [order|e0] eqn:Hget.
  - assert (Hstep : forall q l,
      loop ids q l = (p', Raise e) ->
      (forall done l', loop done q l = (p', Ok l') ->
                       loop (id :: done) p txs = (p', Ok l')) ->
      exists done k rest transactions',
        id :: ids = done ++ k :: rest /\ get_order k = Raise e /\
        loop done p txs = (p', Ok transactions')).
    { intros q l Hq Hcons.
      destruct (IH _ _ _ _ Hq) as (done & k & rest & l' & -> & Hk & Hdone).
      exists (id :: done), k, rest, l'. split; [reflexivity|].
      split; [exact Hk | now apply Hcons]. }
    destruct (Order.status order) eqn:Hst;
      apply (Hstep _ _ Hrun); intros done l' Hdone; simpl;
      now rewrite Hget, Hst.
  - injection Hrun as <- <-. exists [], id, ids, txs.
    split; [reflexivity|]. split; [exact Hget | reflexivity].
Qed.

(** C7, as the code has it. A pass that finds an order of the open set
    FILLED and completes emits exactly one transaction for it, carrying
    the order's id, asset, amount, executed price and commission, takes
    the order out of the open-orders mapping and moves the position of
    its asset by its amount (next to the amounts of the other orders the
    same pass finds filled for that asset). A pass in which the
    connector raises for some id hands back no transaction at all: when
    the filled order came before that id, it is out of the mapping and
    its amount is in the position all the same; when it came after, it
    is still in the mapping. *)
Theorem check_open_orders_fill_outcomes portfolio local order :
  Portfolio.open_orders portfolio !! Order.id order = Some local ->
  get_order (Order.id order) = Ok order ->
  Order.status order = FILLED ->
  match Exchange.check_open_orders get_order utcnow portfolio with
  | (portfolio', Ok transactions) =>
      Exchange.transactions_of (Order.id order) transactions =
        [ {| Transaction.asset := Order.asset order;
             Transaction.amount := Order.amount order;
             Transaction.dt := utcnow;
             Transaction.price := Order.executed_price order;
             Transaction.order_id := Order.id order;
             Transaction.commission := Order.commission order |} ] /\
      Portfolio.open_orders portfolio' !! Order.id order = None /\
      Portfolio.positions portfolio' (Order.asset order) =
        Portfolio.positions portfolio (Order.asset order) + Order.amount order +
        filled_amount (Order.asset order)
          (filter (fun k => k <> Order.id order) (Exchange.order_ids portfolio))
  | (portfolio', Raise e) =>
      exists done k rest,
        Exchange.order_ids portfolio = done ++ k :: rest /\
        get_order k = Raise e /\
        (Order.id order ∈ done ->
         Portfolio.open_orders portfolio' !! Order.id order = None /\
         Portfolio.positions portfolio' (Order.asset order) =
           Portfolio.positions portfolio (Order.asset order) + Order.amount order +
           filled_amount (Order.asset order)
             (filter (fun k => k <> Order.id order) done)) /\
        (Order.id order ∉ done ->
         Portfolio.open_orders portfolio' !! Order.id order = Some local)
  end.
Proof.
  intros Hopen Hget Hst.
  destruct (Exchange.check_open_orders get_order utcnow portfolio)
    as [portfolio' [transactions|e]] eqn:Hrun.
  - destruct (check_open_orders_fill_completed _ _ _ _ _ Hrun Hopen Hget Hst)
      as (Htx & Hgone & Hpos & _).
    split; [exact Htx|]. split; [exact Hgone | exact Hpos].
  - rewrite check_open_orders_unfold in Hrun.
    destruct (check_open_orders_loop_raise _ _ _ _ _ Hrun)
      as (done & k & rest & txs' & Hsplit & Hk & Hdone).
    exists done, k, rest. split; [exact Hsplit|]. split; [exact Hk|].
    destruct (loop_spec _ _ _ _ _ Hdone) as (_ & _ & Hrem & Hkeep & Hpos).
    assert (Hnd : NoDup done).
    { pose proof (order_ids_NoDup portfolio) as Hall. rewrite Hsplit in Hall.
      now apply NoDup_app in Hall as (Hall & _). }
    split.
    + intros Hin. split.
      * apply Hrem; [exact Hin|]. exists order. tauto.
      * rewrite Hpos, (filled_amount_split order) by assumption. lia.
    + intros Hnin. rewrite Hkeep by tauto. exact Hopen.
Qed.

(** C3. The open-orders mapping keeps its invariant over a pass that
    completes: when every order in the mapping has status OPEN before
    the pass, every order that remains has status OPEN, it is the order
    that was there, and the connector reported it neither FILLED nor
    CANCELLED; an id reported FILLED or CANCELLED is out of the mapping
    after the same pass; the positions moved by the filled amounts only,
    so an asset none of whose orders was found filled (cancelled ones
    included) keeps its position. *)
Theorem check_open_orders_invariant portfolio portfolio' transactions :
  Exchange.check_open_orders get_order utcnow portfolio = (portfolio', Ok transactions) ->
  (forall k local,
      Portfolio.open_orders portfolio !! k = Some local ->
      Order.status local = OPEN) ->
  (forall k local,
      Portfolio.open_orders portfolio' !! k = Some local ->
      Order.status local = OPEN /\
      Portfolio.open_orders portfolio !! k = Some local /\
      exists order, get_order k = Ok order /\
        Order.status order <> FILLED /\ Order.status order <> CANCELLED) /\
  (forall k order,
      get_order k = Ok order ->
      Order.status order = FILLED \/ Order.status order = CANCELLED ->
      Portfolio.open_orders portfolio' !! k = None) /\
  (forall a,
      Portfolio.positions portfolio' a =
      Portfolio.positions portfolio a +
      filled_amount a (Exchange.order_ids portfolio)) /\
  (forall a,
      (forall k order, is_Some (Portfolio.open_orders portfolio !! k) ->
         get_order k = Ok order -> Order.asset order = a ->
         Order.status order <> FILLED) ->
      Portfolio.positions portfolio' a = Portfolio.positions portfolio a).
Proof.
  intros Hrun Hinv.
  destruct (check_open_orders_spec _ _ _ Hrun) as (_ & Hans & Hrem & Hkeep & Hpos).
  split.
  { intros k local Hk.
    assert (Hnl : ~ leaves_open_set k).
    { intros Hl. rewrite (Hrem k Hl) in Hk. discriminate. }
    rewrite (Hkeep k Hnl) in Hk.
    split; [now apply (Hinv k)|]. split; [exact Hk|].
    destruct (Hans k) as [order Hget]; [eauto|].
    exists order. split; [exact Hget|].
    split; intros Hst; apply Hnl; exists order; tauto. }
  split.
  { intros k order Hget Hst. apply Hrem. exists order. tauto. }
  split; [exact Hpos|].
  intros a Hnone. rewrite Hpos, filled_amount_none; [lia|].
  intros k order Hk. apply Hnone. now apply order_ids_elem.
Qed.

End PassFacts.

Lemma sample_remote_failing_by_id : Exchange.answers_by_id sample_remote_failing.
Proof.
  intros k o. unfold sample_remote_failing.
  destruct (decide (k = "O1")) as [->|_]; [|discriminate].
  intros [= <-]. reflexivity.
Qed.

Lemma sample_remote_settled_by_id : Exchange.answers_by_id sample_remote_settled.
Proof.
  intros k o. unfold sample_remote_settled.
  destruct (decide (k = "O1")) as [->|_]; intros [= <-]; reflexivity.
Qed.

Lemma sample_portfolio_two_open k local :
  Portfolio.open_orders sample_portfolio_two !! k = Some local ->
  Order.status local = OPEN.
Proof.
  unfold sample_portfolio_two. simpl.
  intros [[_ <-]|[_ Hk]]%lookup_insert_Some; [reflexivity|].
  apply lookup_singleton_Some in Hk as [_ <-]. reflexivity.
Qed.

(** The statement of C7 where the connection drops in the middle of the
    pass: O1 is found FILLED, the request for O2 times out. The pass
    raises, so its caller gets no transaction; O1 is out of the mapping
    and its two units are in the position. *)
Lemma check_open_orders_fill_outcomes_witness :
  let run := Exchange.check_open_orders sample_remote_failing 1500000060
               sample_portfolio_two in
  Portfolio.open_orders sample_portfolio_two !! "O1" = Some (sample_order "O1" OPEN) /\
  run.2 = Raise (ExchangeRequestError "timeout") /\
  Portfolio.open_orders run.1 !! "O1" = None /\
  Portfolio.positions run.1 btc_usd = 2.
Proof.
  cbv zeta.
  pose proof (check_open_orders_fill_outcomes sample_remote_failing 1500000060
                sample_remote_failing_by_id sample_portfolio_two
                (sample_order "O1" OPEN) (sample_order "O1" FILLED)
                eq_refl eq_refl eq_refl) as Hout.
  assert (Hrun : Exchange.check_open_orders sample_remote_failing 1500000060
                   sample_portfolio_two
                 = ((Exchange.check_open_orders sample_remote_failing 1500000060
                       sample_portfolio_two).1,
                    Raise (ExchangeRequestError "timeout"))).
  { vm_compute. reflexivity. }
  rewrite Hrun in Hout. rewrite Hrun. simpl fst. simpl snd.
  destruct Hout as (done & k & rest & Hsplit & Hk & Hbefore & _).
  split; [reflexivity|]. split; [reflexivity|].
  assert (Hin : "O1" ∈ done).
  { assert (Hids : Exchange.order_ids sample_portfolio_two = ["O1"; "O2"])
      by (vm_compute; reflexivity).
    rewrite Hids in Hsplit.
    destruct done as [|d done].
    - simpl in Hsplit. injection Hsplit as <- _. vm_compute in Hk. discriminate.
    - simpl in Hsplit. injection Hsplit as <- _. now left. }
  destruct (Hbefore Hin) as [Hgone Hpos].
  split; [exact Hgone|].
  vm_compute. reflexivity.
Defined.

(** The statement of C3 at two open orders of which the connector
    reports one FILLED and one OPEN: the open one stays, with status
    OPEN, the filled one is gone. *)
Lemma check_open_orders_invariant_witness :
  let run := Exchange.check_open_orders sample_remote_settled 1500000060
               sample_portfolio_two in
  run.2 = Ok [Exchange.make_transaction 1500000060 (sample_order "O1" FILLED)] /\
  Portfolio.open_orders run.1 !! "O1" = None /\
  (forall k local,
     Portfolio.open_orders run.1 !! k = Some local -> Order.status local = OPEN) /\
  Portfolio.open_orders run.1 !! "O2" = Some (sample_order "O2" OPEN).
Proof.
  cbv zeta.
  assert (Hrun : Exchange.check_open_orders sample_remote_settled 1500000060
                   sample_portfolio_two
                 = ((Exchange.check_open_orders sample_remote_settled 1500000060
                       sample_portfolio_two).1,
                    Ok [Exchange.make_transaction 1500000060 (sample_order "O1" FILLED)])).
  { vm_compute. reflexivity. }
  destruct (check_open_orders_invariant sample_remote_settled 1500000060
              sample_remote_settled_by_id sample_portfolio_two _ _ Hrun
              sample_portfolio_two_open) as (Hstay & Hgone & _ & _).
  split; [now rewrite Hrun|]. split.
  - apply (Hgone "O1" (sample_order "O1" FILLED)); [reflexivity | now left].
  - split; [|vm_compute; reflexivity].
    intros k local Hk. now apply (Hstay k local).
Defined.

(** An order the connector reports REJECTED is neither filled nor
    cancelled: the pass leaves it in the mapping as it is. *)
Lemma check_open_orders_keeps_rejected_order :
  let run := Exchange.check_open_orders (sample_remote REJECTED) 1500000060 sample_portfolio in
  run.2 = Ok [] /\
  Portfolio.open_orders run.1 !! "O1" = Some (sample_order "O1" OPEN) /\
  Exchange.observed_status (sample_remote REJECTED) "O1" = Some REJECTED.
Proof.
  cbv zeta. repeat split; vm_compute; reflexivity.
Qed.

(** *** Sequences of passes *)

(** A pass only takes orders out of the mapping, also when it raises. *)
Lemma check_open_orders_loop_shrinks get_order utcnow ids :
  forall portfolio transactions portfolio' r k,
  Exchange.check_open_orders_loop get_order utcnow ids portfolio transactions
  = (portfolio', r) ->
  Portfolio.open_orders portfolio !! k = None ->
  Portfolio.open_orders portfolio' !! k = None.
Proof.
  induction ids as [|id ids IH]; simpl; intros p txs p' r k Hrun Hk.
  - now injection Hrun as <- _.
  - destruct (get_order id) as [order|e]; [|now injection Hrun as <- _].
    destruct (Order.status order);
      apply (IH _ _ _ _ k) in Hrun; try exact Hrun; try exact Hk;
      simpl; apply lookup_delete_None; now right.
Qed.

Lemma check_open_orders_shrinks get_order utcnow portfolio portfolio' r k :
  Exchange.check_open_orders get_order utcnow portfolio = (portfolio', r) ->
  Portfolio.open_orders portfolio !! k = None ->
  Portfolio.open_orders portfolio' !! k = None.
Proof.
  rewrite check_open_orders_unfold. apply check_open_orders_loop_shrinks.
Qed.

Lemma check_open_orders_passes_shrink passes utcnow :
  forall portfolio portfolio' outcomes k,
  Exchange.check_open_orders_passes passes utcnow portfolio = (portfolio', outcomes) ->
  Portfolio.open_orders portfolio !! k = None ->
  Portfolio.open_orders portfolio' !! k = None.
Proof.
  induction passes as [|g passes IH]; simpl; intros p p' outs k Hrun Hk.
  - now injection Hrun as <- _.
  - destruct (Exchange.check_open_orders g utcnow p) as [p1 outcome] eqn:Hpass.
    destruct (Exchange.check_open_orders_passes passes utcnow p1)
      as [p2 later] eqn:Hrest.
    injection Hrun as <- _.
    apply (IH _ _ _ k Hrest).
    now apply (check_open_orders_shrinks _ _ _ _ _ k Hpass).
Qed.

Lemma transactions_of_app k l1 l2 :
  Exchange.transactions_of k (l1 ++ l2) =
  Exchange.transactions_of k l1 ++ Exchange.transactions_of k l2.
Proof. apply filter_app. Qed.

Lemma returned_transactions_app l1 l2 :
  Exchange.returned_transactions (l1 ++ l2) =
  Exchange.returned_transactions l1 ++ Exchange.returned_transactions l2.
Proof. apply flat_map_app. Qed.

(** What one pass contributes for an order, whatever its outcome. *)
Lemma check_open_orders_outcome_emits g utcnow portfolio portfolio' outcome k :
  Exchange.answers_by_id g ->
  Exchange.check_open_orders g utcnow portfolio = (portfolio', outcome) ->
  Exchange.transactions_of k (Exchange.returned_transactions [outcome]) =
  match outcome with
  | Ok _ =>
      if decide (is_Some (Portfolio.open_orders portfolio !! k))
      then Exchange.fill_of g utcnow k else []
  | Raise _ => []
  end.
Proof.
  intros Hg Hpass. unfold Exchange.returned_transactions. simpl.
  rewrite app_nil_r. destruct outcome as [txs|e]; [|reflexivity].
  apply (check_open_orders_emits g utcnow Hg _ _ _ k Hpass).
Qed.

Lemma returned_transactions_cons outcome later :
  Exchange.returned_transactions (outcome :: later) =
  Exchange.returned_transactions [outcome] ++ Exchange.returned_transactions later.
Proof. apply (returned_transactions_app [outcome] later). Qed.

(** Once an id is out of the mapping, no later pass emits for it. *)
Lemma check_open_orders_passes_silent passes utcnow :
  forall portfolio portfolio' outcomes k,
  Exchange.all_answer_by_id passes ->
  Exchange.check_open_orders_passes passes utcnow portfolio = (portfolio', outcomes) ->
  Portfolio.open_orders portfolio !! k = None ->
  Exchange.transactions_of k (Exchange.returned_transactions outcomes) = [].
Proof.
  induction passes as [|g passes IH]; simpl; intros p p' outs k Hall Hrun Hk.
  - now injection Hrun as _ <-.
  - apply Forall_cons in Hall as [Hg Hall].
    destruct (Exchange.check_open_orders g utcnow p) as [p1 outcome] eqn:Hpass.
    destruct (Exchange.check_open_orders_passes passes utcnow p1)
      as [p2 later] eqn:Hrest.
    injection Hrun as _ <-.
    rewrite returned_transactions_cons, transactions_of_app.
    rewrite (check_open_orders_outcome_emits g utcnow _ _ _ k Hg Hpass).
    rewrite (IH _ _ _ k Hall Hrest)
      by (now apply (check_open_orders_shrinks _ _ _ _ _ k Hpass)).
    destruct outcome; [|reflexivity].
    rewrite decide_False by (rewrite Hk; apply is_Some_None). reflexivity.
Qed.

(** While an id is still in the mapping, no pass has emitted for it. *)
Lemma check_open_orders_passes_pending passes utcnow :
  forall portfolio portfolio' outcomes k,
  Exchange.all_answer_by_id passes ->
  Exchange.check_open_orders_passes passes utcnow portfolio = (portfolio', outcomes) ->
  is_Some (Portfolio.open_orders portfolio' !! k) ->
  Exchange.transactions_of k (Exchange.returned_transactions outcomes) = [].
Proof.
  induction passes as [|g passes IH]; simpl; intros p p' outs k Hall Hrun Hk.
  - now injection Hrun as _ <-.
  - apply Forall_cons in Hall as [Hg Hall].
    destruct (Exchange.check_open_orders g utcnow p) as [p1 outcome] eqn:Hpass.
    destruct (Exchange.check_open_orders_passes passes utcnow p1)
      as [p2 later] eqn:Hrest.
    injection Hrun as <- <-.
    rewrite returned_transactions_cons, transactions_of_app.
    rewrite (IH _ _ _ k Hall Hrest Hk), app_nil_r.
    rewrite (check_open_orders_outcome_emits g utcnow _ _ _ k Hg Hpass).
    destruct outcome as [txs|e]; [|reflexivity].
    destruct (decide _) as [Hopen|]; [|reflexivity].
    unfold Exchange.fill_of.
    destruct (g k) as [order|e] eqn:Hget; [|reflexivity].
    destruct (Order.status order) eqn:Hst; try reflexivity.
    exfalso.
    destruct (check_open_orders_spec g utcnow Hg _ _ _ Hpass) as (_ & _ & Hrem & _).
    assert (Hgone : Portfolio.open_orders p1 !! k = None).
    { apply Hrem. exists order. tauto. }
    apply (check_open_orders_passes_shrink _ _ _ _ _ k Hrest) in Hgone.
    rewrite Hgone in Hk. now apply is_Some_None in Hk.
Qed.

Lemma check_open_orders_passes_at_most_once passes utcnow :
  forall portfolio portfolio' outcomes k,
  Exchange.all_answer_by_id passes ->
  Exchange.check_open_orders_passes passes utcnow portfolio = (portfolio', outcomes) ->
  (length (Exchange.transactions_of k (Exchange.returned_transactions outcomes)) <= 1)%nat.
Proof.
  induction passes as [|g passes IH]; simpl; intros p p' outs k Hall Hrun.
  - injection Hrun as _ <-. simpl. lia.
  - apply Forall_cons in Hall as [Hg Hall].
    destruct (Exchange.check_open_orders g utcnow p) as [p1 outcome] eqn:Hpass.
    destruct (Exchange.check_open_orders_passes passes utcnow p1)
      as [p2 later] eqn:Hrest.
    injection Hrun as _ <-.
    rewrite returned_transactions_cons, transactions_of_app, length_app.
    specialize (IH _ _ _ k Hall Hrest).
    rewrite (check_open_orders_outcome_emits g utcnow _ _ _ k Hg Hpass).
    destruct outcome as [txs|e]; [|simpl; lia].
    destruct (decide _) as [Hopen|]; [|simpl; lia].
    unfold Exchange.fill_of.
    destruct (g k) as [order|e] eqn:Hget; [|simpl; lia].
    destruct (Order.status order) eqn:Hst; try (simpl; lia).
    destruct (check_open_orders_spec g utcnow Hg _ _ _ Hpass) as (_ & _ & Hrem & _).
    rewrite (check_open_orders_passes_silent _ _ _ _ _ k Hall Hrest).
    + simpl. lia.
    + apply Hrem. exists order. tauto.
Qed.

Lemma check_open_orders_passes_app before after utcnow :
  forall portfolio,
  Exchange.check_open_orders_passes (before ++ after) utcnow portfolio =
  match Exchange.check_open_orders_passes before utcnow portfolio with
  | (p1, outs1) =>
      match Exchange.check_open_orders_passes after utcnow p1 with
      | (p2, outs2) => (p2, outs1 ++ outs2)
      end
  end.
Proof.
  induction before as [|g before IH]; simpl; intros p.
  - now destruct (Exchange.check_open_orders_passes after utcnow p).
  - destruct (Exchange.check_open_orders g utcnow p) as [p1 outcome].
    rewrite IH.
    destruct (Exchange.check_open_orders_passes before utcnow p1) as [q o1].
    now destruct (Exchange.check_open_orders_passes after utcnow q).
Qed.

(** C4, as the code has it. Over any sequence of passes, raising ones
    included, an order gets at most one transaction. When a pass finds
    the order, still in the open set, FILLED and completes, that pass
    returns exactly one transaction for it and takes it out of the open
    set; the passes before returned none for it, the passes after
    return none, and the whole sequence holds exactly that one. When
    that pass raises after it has taken the order out of the open set,
    its transaction is dropped with the pass and no pass of the
    sequence returns one for the order: the fill gets no transaction. *)
Theorem fill_transaction_once_or_lost :
  (forall passes utcnow portfolio portfolio' outcomes k,
      Exchange.all_answer_by_id passes ->
      Exchange.check_open_orders_passes passes utcnow portfolio = (portfolio', outcomes) ->
      (length (Exchange.transactions_of k (Exchange.returned_transactions outcomes))
       <= 1)%nat) /\
  (forall before get_order after utcnow portfolio p1 outs1 p2 outcome p3 outs3
          local order,
      Exchange.all_answer_by_id (before ++ get_order :: after) ->
      Exchange.check_open_orders_passes before utcnow portfolio = (p1, outs1) ->
      Portfolio.open_orders p1 !! Order.id order = Some local ->
      get_order (Order.id order) = Ok order ->
      Order.status order = FILLED ->
      Exchange.check_open_orders get_order utcnow p1 = (p2, outcome) ->
      Exchange.check_open_orders_passes after utcnow p2 = (p3, outs3) ->
      Exchange.check_open_orders_passes (before ++ get_order :: after) utcnow portfolio
        = (p3, outs1 ++ outcome :: outs3) /\
      Exchange.transactions_of (Order.id order) (Exchange.returned_transactions outs1)
        = [] /\
      match outcome with
      | Ok transactions =>
          Exchange.transactions_of (Order.id order) transactions =
            [Exchange.make_transaction utcnow order] /\
          Portfolio.open_orders p2 !! Order.id order = None /\
          Exchange.transactions_of (Order.id order)
            (Exchange.returned_transactions outs3) = [] /\
          Exchange.transactions_of (Order.id order)
            (Exchange.returned_transactions (outs1 ++ outcome :: outs3)) =
            [Exchange.make_transaction utcnow order]
      | Raise _ =>
          Portfolio.open_orders p2 !! Order.id order = None ->
          Portfolio.open_orders p3 !! Order.id order = None /\
          Exchange.transactions_of (Order.id order)
            (Exchange.returned_transactions (outs1 ++ outcome :: outs3)) = []
      end).
Proof.
  split; [intros; eapply check_open_orders_passes_at_most_once; eassumption|].
  intros before g after utcnow p p1 outs1 p2 outcome p3 outs3 local order
    Hall Hbefore Hopen Hget Hst Hpass Hafter.
  apply Forall_app in Hall as [Hallb Halla].
  apply Forall_cons in Halla as [Hg Halla].
  assert (H1 : Exchange.transactions_of (Order.id order)
                 (Exchange.returned_transactions outs1) = []).
  { apply (check_open_orders_passes_pending _ _ _ _ _ _ Hallb Hbefore). eauto. }
  assert (Hwhole :
    Exchange.transactions_of (Order.id order)
      (Exchange.returned_transactions (outs1 ++ outcome :: outs3)) =
    Exchange.transactions_of (Order.id order) (Exchange.returned_transactions [outcome])
    ++ Exchange.transactions_of (Order.id order) (Exchange.returned_transactions outs3)).
  { rewrite returned_transactions_app, returned_transactions_cons.
    now rewrite !transactions_of_app, H1. }
  split.
  { rewrite check_open_orders_passes_app, Hbefore. simpl.
    now rewrite Hpass, Hafter. }
  split; [exact H1|].
  destruct outcome as [txs|e].
  - destruct (check_open_orders_filled_order g utcnow Hg _ _ _ _ _ Hpass Hopen Hget Hst)
      as (Htx & Hgone).
    assert (H3 : Exchange.transactions_of (Order.id order)
                   (Exchange.returned_transactions outs3) = []).
    { apply (check_open_orders_passes_silent _ _ _ _ _ _ Halla Hafter Hgone). }
    repeat split; try assumption.
    rewrite Hwhole, H3, app_nil_r.
    unfold Exchange.returned_transactions. simpl. now rewrite app_nil_r.
  - intros Hgone. split.
    + apply (check_open_orders_passes_shrink _ _ _ _ _ _ Hafter Hgone).
    + rewrite Hwhole.
      rewrite (check_open_orders_passes_silent _ _ _ _ _ _ Halla Hafter Hgone).
      reflexivity.
Qed.

(** The statement of C4 where the connection drops in the middle of the
    first pass and is back for the second: O1, found FILLED before the
    timeout, is out of the mapping with its two units in the position,
    and neither pass returns a transaction for it. The same through
    [_check_open_orders], whose retry is the second pass: it returns the
    empty list. *)
Lemma fill_transaction_once_or_lost_witness :
  let run := Exchange.check_open_orders_passes
               [sample_remote_failing; sample_remote_settled]
               1500000060 sample_portfolio_two in
  run.2 = [Raise (ExchangeRequestError "timeout"); Ok []] /\
  Exchange.transactions_of "O1" (Exchange.returned_transactions run.2) = [] /\
  Portfolio.open_orders run.1 !! "O1" = None /\
  Portfolio.positions run.1 btc_usd = 2 /\
  (_check_open_orders replay_algo 0).2 = Ok (Some []) /\
  Portfolio.open_orders
    (Connector.portfolio (exchange (_check_open_orders replay_algo 0).1)) !! "O1" = None.
Proof.
  cbv zeta.
  destruct fill_transaction_once_or_lost as [_ Hlost].
  pose (p2 := (Exchange.check_open_orders sample_remote_failing 1500000060
                 sample_portfolio_two).1).
  pose (p3 := (Exchange.check_open_orders sample_remote_settled 1500000060 p2).1).
  destruct (Hlost [] sample_remote_failing [sample_remote_settled] 1500000060
              sample_portfolio_two sample_portfolio_two [] p2
              (Raise (ExchangeRequestError "timeout")) p3 [Ok []]
              (sample_order "O1" OPEN) (sample_order "O1" FILLED))
    as (Hrun & _ & Hnone).
  - repeat constructor;
      [apply sample_remote_failing_by_id | apply sample_remote_settled_by_id].
  - reflexivity.
  - reflexivity.
  - reflexivity.
  - reflexivity.
  - vm_compute. reflexivity.
  - vm_compute. reflexivity.
  - simpl app in Hrun, Hnone. rewrite Hrun. simpl fst. simpl snd.
    destruct Hnone as [Hgone Hlist]; [vm_compute; reflexivity|].
    split; [reflexivity|]. split; [exact Hlist|]. split; [exact Hgone|].
    split; [vm_compute; reflexivity|].
    split; vm_compute; reflexivity.
Defined.

(* ===================================================================== *)
(** ** The retrying wrappers *)
(* ===================================================================== *)

Section RetryFacts.

Context {X : Type} `{Connector.t X}.

Lemma only_effects_refl (a : Algo X) : only_effects a a.
Proof. repeat split. Qed.

Lemma only_effects_trans (a b c : Algo X) :
  only_effects a b -> only_effects b c -> only_effects a c.
Proof.
  unfold only_effects. intros Hab Hbc.
  destruct Hab as (?&?&?&?&?&?&?&?&?&?), Hbc as (?&?&?&?&?&?&?&?&?&?).
  repeat split; congruence.
Qed.

Lemma only_effects_attempt (a : Algo X) x r :
  only_effects a (sleep (log_record r (set_exchange x a))).
Proof. repeat split. Qed.

Lemma request_errors_prefix {A} (op : X -> X * result A) n : forall m x x',
  request_errors op n x x' -> (m <= n)%nat ->
  exists xm, request_errors op m x xm.
Proof.
  induction n as [|n IH]; intros m x x' Hn Hm.
  - assert (m = 0)%nat as -> by lia. exists x. constructor.
  - destruct m as [|m]; [exists x; constructor|].
    inversion Hn as [|? ? x1 ? error Hop Hrest]; subst.
    destruct (IH m x1 x' Hrest) as [xm Hxm]; [lia|].
    exists xm. econstructor; eassumption.
Qed.

(** *** [_order] *)

Lemma _order_succeeds asset amount limit_price stop_price style n :
  forall (a : Algo X) attempt_index x' x'' order_id,
  request_errors (Connector.order asset amount limit_price stop_price style)
    n (exchange a) x' ->
  Connector.order asset amount limit_price stop_price style x' = (x'', Ok order_id) ->
  Z.of_nat n <= retry_order a - attempt_index ->
  exists a',
    _order a asset amount limit_price stop_price style attempt_index = (a', Ok order_id) /\
    exchange a' = x'' /\ only_effects a a' /\
    slept a' = slept a + Z.of_nat n * retry_delay a.
Proof.
  induction n as [|n IH]; intros a i x' x'' order_id Herr Hok Hn.
  - inversion Herr; subst.
    rewrite _order_equation_1, Hok.
    eexists. repeat split; simpl; lia.
  - inversion Herr as [|? ? x1 ? error Hop Hrest]; subst.
    rewrite _order_equation_1, Hop. simpl.
    destruct (Z_lt_dec i (retry_order a)) as [Hlt|Hge]; [|lia].
    set (a1 := sleep (log_record (AttemptFailed "order" i error) (set_exchange x1 a))).
    destruct (IH a1 (i + 1) x' x'' order_id) as (a' & Hrun & Hx & Hsame & Hslept);
      [exact Hrest | exact Hok | simpl; lia |].
    exists a'. split; [exact Hrun|]. split; [exact Hx|]. split.
    + eapply only_effects_trans; [apply only_effects_attempt | exact Hsame].
    + rewrite Hslept. simpl. lia.
Qed.

Lemma _order_gives_up asset amount limit_price stop_price style n :
  forall (a : Algo X) attempt_index x',
  request_errors (Connector.order asset amount limit_price stop_price style)
    n (exchange a) x' ->
  attempt_index <= retry_order a ->
  Z.of_nat n = retry_order a - attempt_index + 1 ->
  exists a',
    _order a asset amount limit_price stop_price style attempt_index = (a', Ok None) /\
    exchange a' = x' /\ only_effects a a' /\
    slept a' = slept a + (Z.of_nat n - 1) * retry_delay a.
Proof.
  induction n as [|n IH]; intros a i x' Herr Hi Hn; [lia|].
  inversion Herr as [|? ? x1 ? error Hop Hrest]; subst.
  rewrite _order_equation_1, Hop. simpl.
  destruct (Z_lt_dec i (retry_order a)) as [Hlt|Hge].
  - set (a1 := sleep (log_record (AttemptFailed "order" i error) (set_exchange x1 a))).
    destruct (IH a1 (i + 1) x') as (a' & Hrun & Hx & Hsame & Hslept);
      [exact Hrest | simpl; lia | simpl; lia |].
    exists a'. split; [exact Hrun|]. split; [exact Hx|]. split.
    + eapply only_effects_trans; [apply only_effects_attempt | exact Hsame].
    + rewrite Hslept. simpl. lia.
  - assert (n = 0)%nat as -> by lia.
    inversion Hrest; subst.
    eexists. split; [reflexivity|]. repeat split. simpl. lia.
Qed.

(** *** The read wrappers once the attempts are used up *)

Lemma _check_open_orders_gives_up n :
  forall (a : Algo X) attempt_index x',
  request_errors Connector.check_open_orders n (exchange a) x' ->
  attempt_index <= retry_check_open_orders a ->
  Z.of_nat n = retry_check_open_orders a - attempt_index + 1 ->
  exists a',
    _check_open_orders a attempt_index = (a', Ok None) /\
    exchange a' = x' /\ only_effects a a'.
Proof.
  induction n as [|n IH]; intros a i x' Herr Hi Hn; [lia|].
  inversion Herr as [|? ? x1 ? error Hop Hrest]; subst.
  rewrite _check_open_orders_equation_1, Hop. simpl.
  destruct (Z_lt_dec i (retry_check_open_orders a)) as [Hlt|Hge].
  - set (a1 := sleep (log_record (AttemptFailed "check open orders" i error)
                        (set_exchange x1 a))).
    destruct (IH a1 (i + 1) x') as (a' & Hrun & Hx & Hsame);
      [exact Hrest | simpl; lia | simpl; lia |].
    exists a'. split; [exact Hrun|]. split; [exact Hx|].
    eapply only_effects_trans; [apply only_effects_attempt | exact Hsame].
  - assert (n = 0)%nat as -> by lia.
    inversion Hrest; subst.
    eexists. split; [reflexivity|]. repeat split.
Qed.

Lemma _get_open_orders_gives_up asset n :
  forall (a : Algo X) attempt_index x',
  request_errors (Connector.get_open_orders asset) n (exchange a) x' ->
  attempt_index <= retry_get_open_orders a ->
  Z.of_nat n = retry_get_open_orders a - attempt_index + 1 ->
  exists a',
    _get_open_orders a asset attempt_index = (a', Ok None) /\
    exchange a' = x' /\ only_effects a a'.
Proof.
  induction n as [|n IH]; intros a i x' Herr Hi Hn; [lia|].
  inversion Herr as [|? ? x1 ? error Hop Hrest]; subst.
  rewrite _get_open_orders_equation_1, Hop. simpl.
  destruct (Z_lt_dec i (retry_get_open_orders a)) as [Hlt|Hge].
  - set (a1 := sleep (log_record (AttemptFailed "open orders" i error)
                        (set_exchange x1 a))).
    destruct (IH a1 (i + 1) x') as (a' & Hrun & Hx & Hsame);
      [exact Hrest | simpl; lia | simpl; lia |].
    exists a'. split; [exact Hrun|]. split; [exact Hx|].
    eapply only_effects_trans; [apply only_effects_attempt | exact Hsame].
  - assert (n = 0)%nat as -> by lia.
    inversion Hrest; subst.
    eexists. split; [reflexivity|]. repeat split.
Qed.

Lemma _update_portfolio_gives_up n :
  forall (a : Algo X) attempt_index x',
  request_errors Connector.update_portfolio n (exchange a) x' ->
  attempt_index <= retry_update_portfolio a ->
  Z.of_nat n = retry_update_portfolio a - attempt_index + 1 ->
  exists a',
    _update_portfolio a attempt_index = (a', Ok tt) /\
    exchange a' = x' /\ only_effects a a'.
Proof.
  induction n as [|n IH]; intros a i x' Herr Hi Hn; [lia|].
  inversion Herr as [|? ? x1 ? error Hop Hrest]; subst.
  rewrite _update_portfolio_equation_1, Hop. simpl.
  destruct (Z_lt_dec i (retry_update_portfolio a)) as [Hlt|Hge].
  - set (a1 := sleep (log_record (AttemptFailed "update portfolio" i error)
                        (set_exchange x1 a))).
    destruct (IH a1 (i + 1) x') as (a' & Hrun & Hx & Hsame);
      [exact Hrest | simpl; lia | simpl; lia |].
    exists a'. rewrite Hrun. split; [reflexivity|]. split; [exact Hx|].
    eapply only_effects_trans; [apply only_effects_attempt | exact Hsame].
  - assert (n = 0)%nat as -> by lia.
    inversion Hrest; subst.
    eexists. split; [reflexivity|]. repeat split.
Qed.

End RetryFacts.

(* ===================================================================== *)
(** ** Order placement *)
(* ===================================================================== *)

Section OrderFacts.

Context {X : Type} `{Connector.t X}.
Variable collaborators : Collaborators X.

(** C1, as the code has it. Outside the pre-session phase and with a
    budget [retry_order >= 0]: when the exchange raises [n] request
    errors in a row and then accepts the order, [order] returns the
    booked order provided [n <= retry_order]; when more than
    [retry_order] errors come in a row, [_order] returns [None] instead
    of an id and [order] ends in the [KeyError] of the open-orders
    lookup. No [ExchangeRequestErrorTooManyAttempts] is raised. *)
Theorem order_retry_budget (a : Algo X) asset amount limit_price stop_price style
    amount' style' n x' :
  in_before_trading_start a = false ->
  _calculate_order collaborators asset amount limit_price stop_price style
    = Ok (amount', style') ->
  0 <= retry_order a ->
  request_errors (Connector.order asset amount' limit_price stop_price (Some style'))
    n (exchange a) x' ->
  (Z.of_nat n <= retry_order a ->
   forall x'' order_id booked,
     Connector.order asset amount' limit_price stop_price (Some style') x'
       = (x'', Ok (Some order_id)) ->
     Portfolio.open_orders (Connector.portfolio x'') !! order_id = Some booked ->
     exists a',
       order collaborators a asset amount limit_price stop_price style = (a', Ok booked) /\
       exchange a' = x'') /\
  (retry_order a < Z.of_nat n ->
   exists a',
     _order a asset amount' limit_price stop_price (Some style') 0 = (a', Ok None) /\
     order collaborators a asset amount limit_price stop_price style
       = (a', Raise KeyError)).
Proof.
  intros Hbts Hcalc Hbudget Herr.
  unfold order, disallowed_in_before_trading_start, order_body.
  rewrite Hbts, Hcalc. split.
  - intros Hn x'' order_id booked Hok Hbooked.
    destruct (_order_succeeds _ _ _ _ _ n a 0 x' x'' (Some order_id) Herr Hok)
      as (a1 & Hrun & Hx & _); [lia|].
    rewrite Hrun. unfold open_orders_getitem, updated_portfolio.
    rewrite Hx, Hbooked.
    eexists. split; [reflexivity|]. exact Hx.
  - intros Hn.
    destruct (request_errors_prefix _ n (S (Z.to_nat (retry_order a))) _ _ Herr)
      as [xm Hm]; [lia|].
    destruct (_order_gives_up _ _ _ _ _ _ a 0 xm Hm) as (a1 & Hrun & _);
      [lia | lia |].
    exists a1. rewrite Hrun. split; reflexivity.
Qed.

End OrderFacts.

(** The statement of C1 at the default budget of one retry and an
    exchange that times out twice: the caller gets a [KeyError]. *)
Lemma order_retry_budget_witness :
  retry_order (mock_algo 2 0) = 1 /\
  (order mock_collaborators (mock_algo 2 0) btc_usd 2 None None None).2
    = Raise KeyError.
Proof.
  split; [reflexivity|].
  assert (Herr : request_errors (Connector.order btc_usd 2 None None (Some MarketOrder)) 2
                   (exchange (mock_algo 2 0))
                   (mkMock (mock_portfolio (exchange (mock_algo 2 0))) 0 0 [])).
  { apply (request_errors_S _ _ _
             (mkMock (mock_portfolio (exchange (mock_algo 2 0))) 1 0 []) _ "timeout");
      [reflexivity|].
    apply (request_errors_S _ _ _
             (mkMock (mock_portfolio (exchange (mock_algo 2 0))) 0 0 []) _ "timeout");
      [reflexivity|].
    constructor. }
  destruct (order_retry_budget mock_collaborators (mock_algo 2 0) btc_usd 2 None None None
              2 MarketOrder 2 _ eq_refl eq_refl ltac:(simpl; lia) Herr)
    as [_ Hfail].
  destruct Hfail as (a' & _ & Horder); [simpl; lia|].
  now rewrite Horder.
Defined.

Section ContractFacts.

Context {X : Type} `{Connector.t X}.
Variable collaborators : Collaborators X.

(** C5. In the pre-session phase [order] fails with
    [OrderInBeforeTradingStart], which is no request error, and leaves
    everything as it was. Outside it, [order] hands the amount and style
    computed by [_calculate_order] to the retrying [_order]; when the
    exchange accepts within the placement budget, the result is the
    order found under the returned id in the portfolio's open orders,
    and that order has been passed to the performance tracker. *)
Theorem order_contract (a : Algo X) asset amount limit_price stop_price style :
  (in_before_trading_start a = true ->
   order collaborators a asset amount limit_price stop_price style
     = (a, Raise OrderInBeforeTradingStart) /\
   forall error, OrderInBeforeTradingStart <> ExchangeRequestError error) /\
  (in_before_trading_start a = false ->
   forall amount' style' n x' x'' order_id booked,
     _calculate_order collaborators asset amount limit_price stop_price style
       = Ok (amount', style') ->
     request_errors (Connector.order asset amount' limit_price stop_price (Some style'))
       n (exchange a) x' ->
     Z.of_nat n <= retry_order a ->
     Connector.order asset amount' limit_price stop_price (Some style') x'
       = (x'', Ok (Some order_id)) ->
     Portfolio.open_orders (Connector.portfolio x'') !! order_id = Some booked ->
     exists a',
       order collaborators a asset amount limit_price stop_price style = (a', Ok booked) /\
       exchange a' = x'' /\
       processed_orders (perf_tracker a') = processed_orders (perf_tracker a) ++ [booked] /\
       processed_transactions (perf_tracker a') = processed_transactions (perf_tracker a) /\
       slept a' = slept a + Z.of_nat n * retry_delay a).
Proof.
  unfold order, disallowed_in_before_trading_start. split.
  - intros ->. split; [reflexivity | discriminate].
  - intros -> amount' style' n x' x'' order_id booked Hcalc Herr Hn Hok Hbooked.
    unfold order_body. rewrite Hcalc.
    destruct (_order_succeeds _ _ _ _ _ n a 0 x' x'' (Some order_id) Herr Hok)
      as (a1 & Hrun & Hx & Hsame & Hslept); [lia|].
    rewrite Hrun. unfold open_orders_getitem, updated_portfolio.
    rewrite Hx, Hbooked.
    destruct Hsame as (_ & _ & _ & _ & _ & _ & _ & Hperf & _).
    eexists. split; [reflexivity|]. simpl. rewrite Hperf.
    repeat split; assumption.
Qed.

(** C10. [cancel_order] takes an id or an [Order] object, of which it
    uses the id. In both cases the exchange ends up in the state that
    its own [cancel_order], called once with that id, leaves behind; the
    call returns nothing when the exchange returns, whatever it
    returned, and raises what the exchange raises; nothing else of the
    algorithm changes. *)
Theorem cancel_order_reaches_exchange (a : Algo X) :
  (forall order_id,
     exchange (cancel_order a (OrderId order_id)).1
       = (Connector.cancel_order order_id (exchange a)).1 /\
     (cancel_order a (OrderId order_id)).2
       = match (Connector.cancel_order order_id (exchange a)).2 with
         | Ok _ => Ok tt
         | Raise e => Raise e
         end /\
     only_effects a (cancel_order a (OrderId order_id)).1 /\
     slept (cancel_order a (OrderId order_id)).1 = slept a /\
     log (cancel_order a (OrderId order_id)).1 = log a) /\
  (forall o,
     exchange (cancel_order a (OrderObject o)).1
       = (Connector.cancel_order (Order.id o) (exchange a)).1 /\
     (cancel_order a (OrderObject o)).2
       = match (Connector.cancel_order (Order.id o) (exchange a)).2 with
         | Ok _ => Ok tt
         | Raise e => Raise e
         end /\
     only_effects a (cancel_order a (OrderObject o)).1 /\
     slept (cancel_order a (OrderObject o)).1 = slept a /\
     log (cancel_order a (OrderObject o)).1 = log a).
Proof.
  split.
  - intros order_id. unfold cancel_order.
    destruct (Connector.cancel_order order_id (exchange a)) as [x [reply|e]];
      simpl; repeat split.
  - intros o. unfold cancel_order.
    destruct (Connector.cancel_order (Order.id o) (exchange a)) as [x [reply|e]];
      simpl; repeat split.
Qed.

(** C2, as the code has it. Once every attempt up to the budget has
    raised a request error, [_update_portfolio] returns, while
    [get_open_orders] and [_check_open_orders] return [None], no empty
    listing; [handle_data] then iterates over that [None] and the tick
    ends in a [TypeError]. *)
Theorem read_retries_exhausted (a : Algo X) :
  (forall n x',
     request_errors Connector.update_portfolio n (exchange a) x' ->
     0 <= retry_update_portfolio a ->
     Z.of_nat n = retry_update_portfolio a + 1 ->
     exists a', _update_portfolio a 0 = (a', Ok tt) /\ exchange a' = x') /\
  (forall asset n x',
     request_errors (Connector.get_open_orders asset) n (exchange a) x' ->
     0 <= retry_get_open_orders a ->
     Z.of_nat n = retry_get_open_orders a + 1 ->
     exists a', get_open_orders a asset = (a', Ok None) /\ exchange a' = x') /\
  (forall n x',
     request_errors Connector.check_open_orders n (exchange a) x' ->
     0 <= retry_check_open_orders a ->
     Z.of_nat n = retry_check_open_orders a + 1 ->
     exists a', _check_open_orders a 0 = (a', Ok None) /\ exchange a' = x') /\
  (forall data a1 n x',
     is_running a = true ->
     _update_portfolio a 0 = (a1, Ok tt) ->
     request_errors Connector.check_open_orders n (exchange a1) x' ->
     0 <= retry_check_open_orders a1 ->
     Z.of_nat n = retry_check_open_orders a1 + 1 ->
     exists a', handle_data collaborators a data = (a', Raise TypeError)).
Proof.
  split; [|split; [|split]].
  - intros n x' Herr Hb Hn.
    destruct (_update_portfolio_gives_up n a 0 x' Herr) as (a' & Hrun & Hx & _);
      [lia | lia |]. eauto.
  - intros asset n x' Herr Hb Hn. unfold get_open_orders.
    destruct (_get_open_orders_gives_up asset n a 0 x' Herr) as (a' & Hrun & Hx & _);
      [lia | lia |]. eauto.
  - intros n x' Herr Hb Hn.
    destruct (_check_open_orders_gives_up n a 0 x' Herr) as (a' & Hrun & Hx & _);
      [lia | lia |]. eauto.
  - intros data a1 n x' Hrunning Hsync Herr Hb Hn.
    destruct (_check_open_orders_gives_up n a1 0 x' Herr) as (a' & Hrun & _);
      [lia | lia |].
    exists a'. unfold handle_data. rewrite Hrunning. simpl.
    unfold sync_portfolio_step. rewrite Hsync.
    unfold reconcile_step. rewrite Hrun. reflexivity.
Qed.

(** *** Shutdown *)

Lemma run_steps_interrupted_at n :
  forall steps (a a_n : Algo X),
  (n <= length steps)%nat ->
  run_steps (take n steps) a = (a_n, Ok tt) ->
  run_steps_interrupted n steps a =
  match signal_handler a_n with
  | (a1, Ok _) => run_steps (drop n steps) a1
  | (a1, Raise e) => (a1, Raise e)
  end.
Proof.
  induction n as [|n IH]; intros steps a a_n Hlen Hrun.
  - simpl in Hrun. injection Hrun as <-. destruct steps; reflexivity.
  - destruct steps as [|step rest]; [simpl in Hlen; lia|].
    simpl in Hrun |- *.
    destruct (step a) as [a1 [[]|e]]; [|discriminate].
    apply IH; [simpl in Hlen; lia | exact Hrun].
Qed.

(** C6, as the code has it. An interrupt that arrives once [n]
    statements of a tick are done and at least one snapshot is recorded:
    the handler clears [is_running], hands [analyze] the snapshots
    recorded so far, indexed by [period_close], and leaves through
    [SystemExit 0]. The remaining statements of the tick do not run
    (exchange, tracker and snapshots stay as the interrupt found them),
    and a later [handle_data] does nothing. *)
Theorem interrupt_reports_and_exits (a : Algo X) data n a_n :
  is_running a = true ->
  (n <= length (handle_data_steps collaborators data))%nat ->
  run_steps (take n (handle_data_steps collaborators data)) a = (a_n, Ok tt) ->
  minute_perfs a_n <> [] ->
  exists a',
    handle_data_interrupted collaborators n a data = (a', Raise (SystemExit 0)) /\
    is_running a' = false /\
    analyzed a' =
      analyzed a_n ++ [map (fun s => (period_close s, metrics s)) (minute_perfs a_n)] /\
    minute_perfs a' = minute_perfs a_n /\
    exchange a' = exchange a_n /\
    perf_tracker a' = perf_tracker a_n /\
    (forall data', handle_data collaborators a' data' = (a', Ok tt)).
Proof.
  intros Hrunning Hlen Hrun Hperfs.
  unfold handle_data_interrupted. rewrite Hrunning. simpl negb. cbv iota.
  rewrite (run_steps_interrupted_at n _ a a_n Hlen Hrun).
  unfold signal_handler, stats_frame. simpl minute_perfs.
  destruct (minute_perfs a_n) as [|s l] eqn:Hm; [contradiction|].
  eexists. split; [reflexivity|]. simpl. rewrite Hm.
  repeat split.
Qed.

End ContractFacts.

(** The statement of C5 on the scripted exchange: one timeout, then the
    order is booked as O1 and returned. *)
Lemma order_contract_witness :
  in_before_trading_start (mock_algo 1 0) = false /\
  exists a' booked,
    order mock_collaborators (mock_algo 1 0) btc_usd 2 None None None = (a', Ok booked) /\
    Order.id booked = "O1" /\ Order.amount booked = 2 /\
    processed_orders (perf_tracker a') = [booked] /\
    slept a' = 5.
Proof.
  split; [reflexivity|].
  destruct (order_contract mock_collaborators (mock_algo 1 0) btc_usd 2 None None None)
    as [_ Hout].
  pose (x1 := mkMock (mock_portfolio (exchange (mock_algo 1 0))) 0 0 []).
  assert (Herr : request_errors (Connector.order btc_usd 2 None None (Some MarketOrder)) 1
                   (exchange (mock_algo 1 0)) x1).
  { apply (request_errors_S _ _ _ x1 _ "timeout"); [reflexivity | constructor]. }
  destruct (Hout eq_refl 2 MarketOrder 1%nat x1 (mock_order btc_usd 2 None None (Some MarketOrder) x1).1
              "O1"
              {| Order.id := "O1"; Order.asset := btc_usd; Order.amount := 2;
                 Order.limit := None; Order.stop := None; Order.status := OPEN;
                 Order.dt := 1500000000; Order.executed_price := 0%Q;
                 Order.commission := 0%Q |}
              eq_refl Herr)
    as (a' & Hrun & _ & Hperf & _ & Hslept).
  - simpl. lia.
  - reflexivity.
  - vm_compute. reflexivity.
  - eexists a', _. split; [exact Hrun|].
    split; [reflexivity|]. split; [reflexivity|].
    split; [exact Hperf | exact Hslept].
Defined.

(** The statement of C2 on the scripted exchange: six timeouts of
    [check_open_orders] against a budget of five retries. *)
Lemma read_retries_exhausted_witness :
  retry_check_open_orders (mock_algo 0 6) = 5 /\
  (_check_open_orders (mock_algo 0 6) 0).2 = Ok None /\
  (handle_data mock_collaborators (mock_algo 0 6) 1500000060).2 = Raise TypeError.
Proof.
  split; [reflexivity|].
  destruct (read_retries_exhausted mock_collaborators (mock_algo 0 6))
    as (_ & _ & Hcheck & Htick).
  pose (x := fun n => mkMock (mock_portfolio (exchange (mock_algo 0 6))) 0 n []).
  assert (Herr : request_errors Connector.check_open_orders 6 (x 6%nat) (x 0%nat)).
  { do 6 (eapply (request_errors_S _ _ _ _ _ "timeout"); [reflexivity|]).
    constructor. }
  split.
  - destruct (Hcheck 6%nat (x 0%nat) Herr) as (a' & Hrun & _);
      [simpl; lia | simpl; lia |].
    now rewrite Hrun.
  - destruct (Htick 1500000060 (mock_algo 0 6) 6%nat (x 0%nat) eq_refl) as (a' & Hrun);
      [reflexivity | exact Herr | simpl; lia | simpl; lia |].
    now rewrite Hrun.
Defined.

(** The statement of C6 (as the code has it) on the scripted exchange:
    the interrupt arrives after the second statement of the tick. *)
Lemma interrupt_reports_and_exits_witness :
  is_running mock_algo_after_tick = true /\
  minute_perfs mock_algo_after_tick <> [] /\
  exists a',
    handle_data_interrupted mock_collaborators 2 mock_algo_after_tick 1500000060
      = (a', Raise (SystemExit 0)) /\
    is_running a' = false /\
    analyzed a' = [[(1500000000, [("pnl", 0%Q); ("sharpe", 1%Q)])]] /\
    handle_data mock_collaborators a' 1500000120 = (a', Ok tt).
Proof.
  split; [reflexivity|]. split; [discriminate|].
  destruct (interrupt_reports_and_exits mock_collaborators mock_algo_after_tick
              1500000060 2
              (run_steps (take 2 (handle_data_steps mock_collaborators 1500000060))
                 mock_algo_after_tick).1)
    as (a' & Hrun & Hflag & Hreport & _ & _ & _ & Hlater).
  - reflexivity.
  - simpl. lia.
  - vm_compute. reflexivity.
  - vm_compute. discriminate.
  - exists a'. split; [exact Hrun|]. split; [exact Hflag|].
    split; [|apply Hlater].
    rewrite Hreport. vm_compute. reflexivity.
Defined.

(** C6 as stated does not hold: left alone, the tick records a second
    snapshot; interrupted after its second statement, it ends in
    [SystemExit] with the one snapshot there was, so the tick in flight
    is not completed. *)
Lemma interrupt_abandons_tick_in_flight :
  let finished := handle_data mock_collaborators mock_algo_after_tick 1500000060 in
  let cut := handle_data_interrupted mock_collaborators 2 mock_algo_after_tick 1500000060 in
  finished.2 = Ok tt /\
  length (minute_perfs finished.1) = 2%nat /\
  cut.2 = Raise (SystemExit 0) /\
  length (minute_perfs cut.1) = 1%nat /\
  analyzed cut.1 = [[(1500000000, [("pnl", 0%Q); ("sharpe", 1%Q)])]].
Proof. cbv zeta. repeat split; vm_compute; reflexivity. Qed.

(* ===================================================================== *)
(** * Further properties of exchange.py *)
(* ===================================================================== *)

(** ** Trading pairs and exchange symbols *)

(** X1. With the supported pairs set, [get_trading_pairs] returns the
    requested pairs that are supported, in the order and multiplicity of
    the request; asking again for what it returned changes nothing. With
    the supported pairs unset it raises [TypeError] as soon as there is
    a pair to test, and returns the empty list for an empty request. *)
Theorem get_trading_pairs_filters :
  (forall supported pairs,
     Exchange.get_trading_pairs (Some supported) pairs
       = Ok (filter (fun p => p ∈ supported) pairs) /\
     Exchange.get_trading_pairs (Some supported) (filter (fun p => p ∈ supported) pairs)
       = Ok (filter (fun p => p ∈ supported) pairs) /\
     (forall p, p ∈ filter (fun p => p ∈ supported) pairs <->
                p ∈ pairs /\ p ∈ supported)) /\
  (forall p pairs, Exchange.get_trading_pairs None (p :: pairs) = Raise TypeError) /\
  Exchange.get_trading_pairs None [] = Ok [].
Proof.
  assert (Hfilter : forall supported pairs,
    Exchange.get_trading_pairs (Some supported) pairs
      = Ok (filter (fun p => p ∈ supported) pairs)).
  { intros supported pairs. induction pairs as [|p pairs IH]; [reflexivity|].
    simpl. rewrite IH. rewrite filter_cons.
    destruct (decide (p ∈ supported)) as [Hin|Hnin].
    - now rewrite bool_decide_eq_true_2.
    - now rewrite bool_decide_eq_false_2. }
  split; [|split; reflexivity].
  intros supported pairs. split; [apply Hfilter|]. split.
  - rewrite Hfilter. f_equal.
    induction pairs as [|p pairs IH]; [reflexivity|].
    rewrite filter_cons. destruct (decide (p ∈ supported)) as [Hin|Hnin].
    + rewrite filter_cons_True by exact Hin. now rewrite IH.
    + exact IH.
  - intros p. rewrite list_elem_of_filter. tauto.
Qed.

Section SymbolFacts.

Variable asset_getitem : Asset.t -> string -> result string.

Local Abbreviation get_symbol := (Exchange.get_symbol asset_getitem).
Local Abbreviation get_symbols := (Exchange.get_symbols asset_getitem).

Lemma get_symbol_loop_kept entries asset k :
  k <> "" -> Exchange.get_symbol_loop entries asset (Some k) = Some k.
Proof.
  intros Hk. induction entries as [|[key a] rest IH]; simpl; [reflexivity|].
  rewrite bool_decide_eq_false_2 by exact Hk. exact IH.
Qed.

(** The loop from a falsy start: it ends falsy when nothing is listed,
    and on the key of the first listed entry otherwise. *)
Lemma get_symbol_loop_result entries asset : forall symbol,
  Exchange.not_symbol symbol = true ->
  (Exchange.not_symbol (Exchange.get_symbol_loop entries asset symbol) = true /\
   Exchange.not_listed entries asset) \/
  (exists pre k a post,
     entries = pre ++ (k, a) :: post /\ Exchange.not_listed pre asset /\
     k <> "" /\ Asset.symbol a = Asset.symbol asset /\
     Exchange.get_symbol_loop entries asset symbol = Some k).
Proof.
  induction entries as [|[key a] rest IH]; intros symbol Hfalsy.
  - left. split; [exact Hfalsy | intros k a []].
  - simpl. rewrite Hfalsy. simpl.
    destruct (decide (Asset.symbol a = Asset.symbol asset)) as [Hsym|Hsym].
    + rewrite bool_decide_eq_true_2 by exact Hsym.
      destruct (decide (key = "")) as [->|Hkey].
      * destruct (IH (Some "")) as [[Hres Hnone]|(pre & k & b & post & -> & Hpre & Hk & Hb & Hres)];
          [reflexivity | |].
        -- left. split; [exact Hres|].
           intros k b [Heq|Hin]; [congruence | now apply (Hnone k b)].
        -- right. exists (("", a) :: pre), k, b, post.
           split; [reflexivity|]. split; [|tauto].
           intros k' b' [Heq|Hin]; [congruence | now apply (Hpre k' b')].
      * right. exists [], key, a, rest.
        split; [reflexivity|]. split; [intros k b []|].
        split; [exact Hkey|]. split; [exact Hsym|].
        now apply get_symbol_loop_kept.
    + rewrite bool_decide_eq_false_2 by exact Hsym.
      destruct (IH symbol Hfalsy) as [[Hres Hnone]|(pre & k & b & post & -> & Hpre & Hk & Hb & Hres)].
      * left. split; [exact Hres|].
        intros k b [Heq|Hin]; [congruence | now apply (Hnone k b)].
      * right. exists ((key, a) :: pre), k, b, post.
        split; [reflexivity|]. split; [|tauto].
        intros k' b' [Heq|Hin]; [congruence | now apply (Hpre k' b')].
Qed.

Lemma not_listed_excludes pre k a post asset :
  Exchange.not_listed (pre ++ (k, a) :: post) asset ->
  Asset.symbol a = Asset.symbol asset -> k = "".
Proof.
  intros Hnone. apply (Hnone k a). apply in_or_app. right. now left.
Qed.

Lemma get_symbol_first pre k a post asset :
  Exchange.not_listed pre asset -> k <> "" ->
  Asset.symbol a = Asset.symbol asset ->
  get_symbol (pre ++ (k, a) :: post) asset = Ok k.
Proof.
  intros Hpre Hk Ha. unfold Exchange.get_symbol.
  destruct (get_symbol_loop_result (pre ++ (k, a) :: post) asset None eq_refl)
    as [[_ Hnone]|(pre' & k' & a' & post' & Heq & Hpre' & Hk' & Ha' & Hres)].
  - exfalso. apply Hk. eapply not_listed_excludes; eassumption.
  - (* both splits single out the first listed entry *)
    assert (Hsame : k' = k).
    { clear Hres. revert pre' Heq Hpre'.
      induction pre as [|[k0 a0] pre IH]; intros pre' Heq Hpre'.
      - destruct pre' as [|[k1 a1] pre']; simpl in Heq.
        + congruence.
        + injection Heq as <- <- _. exfalso. apply Hk.
          apply (Hpre' k a); [now left | exact Ha].
      - destruct pre' as [|[k1 a1] pre']; simpl in Heq.
        + injection Heq as -> -> _. exfalso. apply Hk'.
          apply (Hpre k' a'); [now left | exact Ha'].
        + injection Heq as <- <- Heq.
          apply (IH (fun k2 a2 Hin => Hpre k2 a2 (or_intror Hin)) pre' Heq).
          intros k2 a2 Hin. apply (Hpre' k2 a2). now right. }
    subst k'. rewrite Hres. simpl. now rewrite bool_decide_eq_false_2.
Qed.

(** X2. [get_symbol] compares the symbols exactly and skips entries
    whose key is the empty string: it returns the key of the first entry
    that carries the symbol of the asset under a non-empty key; when
    there is none it fails, with what subscripting the asset raises or
    else with a [ValueError]; a key it returns is non-empty and belongs
    to an entry with exactly that symbol. *)
Theorem get_symbol_first_listed assets asset :
  (forall pre k a post,
     assets = pre ++ (k, a) :: post ->
     Exchange.not_listed pre asset -> k <> "" ->
     Asset.symbol a = Asset.symbol asset ->
     get_symbol assets asset = Ok k) /\
  (Exchange.not_listed assets asset ->
   get_symbol assets asset =
   match asset_getitem asset "symbol" with
   | Raise e => Raise e
   | Ok _ => Raise (OtherError "ValueError")
   end) /\
  (forall k, get_symbol assets asset = Ok k ->
     k <> "" /\ exists a, In (k, a) assets /\ Asset.symbol a = Asset.symbol asset).
Proof.
  split; [|split].
  - intros pre k a post -> Hpre Hk Ha. now apply get_symbol_first.
  - intros Hnone. unfold Exchange.get_symbol.
    destruct (get_symbol_loop_result assets asset None eq_refl)
      as [[Hres _]|(pre & k & a & post & -> & _ & Hk & Ha & _)].
    + now rewrite Hres.
    + exfalso. apply Hk. eapply not_listed_excludes; eassumption.
  - intros k Hget.
    destruct (get_symbol_loop_result assets asset None eq_refl)
      as [[Hres _]|(pre & k' & a & post & -> & Hpre & Hk & Ha & _)].
    + unfold Exchange.get_symbol in Hget. rewrite Hres in Hget.
      destruct (asset_getitem asset "symbol"); discriminate.
    + rewrite (get_symbol_first pre k' a post asset Hpre Hk Ha) in Hget.
      injection Hget as <-. split; [exact Hk|].
      exists a. split; [|exact Ha]. apply in_or_app. right. now left.
Qed.

Lemma get_symbols_loop_spec assets wanted : forall symbols,
  (forall found,
     Exchange.get_symbols_loop asset_getitem assets wanted symbols = Ok found <->
     exists more, found = symbols ++ more /\
       Forall2 (fun asset s => get_symbol assets asset = Ok s) wanted more) /\
  (forall e,
     Exchange.get_symbols_loop asset_getitem assets wanted symbols = Raise e ->
     exists done asset rest more,
       wanted = done ++ asset :: rest /\
       Forall2 (fun asset s => get_symbol assets asset = Ok s) done more /\
       get_symbol assets asset = Raise e).
Proof.
  induction wanted as [|asset rest IH]; intros symbols; simpl.
  - split.
    + intros found. split.
      * intros [= <-]. exists []. split; [now rewrite app_nil_r | constructor].
      * intros (more & -> & Hall). inversion Hall. now rewrite app_nil_r.
    + discriminate.
  - destruct (get_symbol assets asset) as [s|e0] eqn:Hget.
    + destruct (IH (symbols ++ [s])) as [Hok Hfail]. split.
      * intros found. rewrite Hok. split.
        -- intros (more & -> & Hall). exists (s :: more).
           split; [now rewrite <- app_assoc | now constructor].
        -- intros (more & -> & Hall).
           inversion Hall as [|? s' ? more' Hs Hrest]; subst.
           assert (s' = s) as -> by congruence.
           exists more'. split; [now rewrite <- app_assoc | exact Hrest].
      * intros e He.
        destruct (Hfail e He) as (done & a & rest' & more & -> & Hdone & Ha).
        exists (asset :: done), a, rest', (s :: more).
        split; [reflexivity|]. split; [now constructor | exact Ha].
    + split.
      * intros found. split; [discriminate|].
        intros (more & _ & Hall). inversion Hall; congruence.
      * intros e [= <-]. exists [], asset, rest, [].
        split; [reflexivity|]. split; [constructor | exact Hget].
Qed.

(** X3. [get_symbols] returns one exchange symbol per asset, in order,
    each the one [get_symbol] finds, exactly when [get_symbol] works for
    every asset; otherwise it raises what [get_symbol] raises for the
    first asset it fails on. *)
Theorem get_symbols_each assets wanted :
  (forall symbols,
     get_symbols assets wanted = Ok symbols <->
     Forall2 (fun asset s => get_symbol assets asset = Ok s) wanted symbols) /\
  (forall e,
     get_symbols assets wanted = Raise e ->
     exists done asset rest more,
       wanted = done ++ asset :: rest /\
       Forall2 (fun asset s => get_symbol assets asset = Ok s) done more /\
       get_symbol assets asset = Raise e).
Proof.
  unfold Exchange.get_symbols.
  destruct (get_symbols_loop_spec assets wanted []) as [Hok Hfail].
  split; [|exact Hfail].
  intros symbols. rewrite Hok. split.
  - intros (more & -> & Hall). exact Hall.
  - intros Hall. exists symbols. split; [reflexivity | exact Hall].
Qed.

End SymbolFacts.

(** ** Loading the registry, then looking up *)

Section LoadFacts.

Variable hash : string -> Z.
Variable to_datetime : string -> Timestamp.
Variable utcnow : Timestamp.
Variable name : option string.
Variable asset_getitem : Asset.t -> string -> result string.

Local Abbreviation make_asset := (Exchange.make_asset hash to_datetime utcnow name).
Local Abbreviation load_assets := (Exchange.load_assets hash to_datetime utcnow name).

(** X4. After [load_assets], the entry under an exchange symbol is the
    asset built from the last value the decoded object gives for it; an
    exchange symbol the object does not mention keeps the entry it had. *)
Theorem load_assets_lookup assets_json : forall assets k,
  dict_get k (load_assets assets_json assets) =
  match Exchange.last_entry k assets_json with
  | Some entry => Some (make_asset entry)
  | None => dict_get k assets
  end.
Proof.
  induction assets_json as [|[k0 e0] rest IH]; intros assets k; simpl.
  - reflexivity.
  - rewrite IH. destruct (Exchange.last_entry k rest) as [e|]; [reflexivity|].
    destruct (decide (k0 = k)) as [->|Hne].
    + apply dict_get_set_eq.
    + apply dict_get_set_ne. congruence.
Qed.

Lemma dict_set_fresh {V} key (value : V) d :
  key ∉ d.*1 -> dict_set key value d = d ++ [(key, value)].
Proof.
  induction d as [|[k v] d IH]; simpl; intros Hfresh; [reflexivity|].
  apply not_elem_of_cons in Hfresh as [Hne Hfresh].
  rewrite decide_False by congruence. now rewrite IH.
Qed.

(** Keys that are new and pairwise different are appended in order. *)
Lemma load_assets_fresh assets_json : forall assets,
  NoDup (assets_json.*1) ->
  (forall k, k ∈ assets_json.*1 -> k ∉ assets.*1) ->
  load_assets assets_json assets =
  assets ++ map (fun ke => (ke.1, make_asset ke.2)) assets_json.
Proof.
  induction assets_json as [|[k0 e0] rest IH]; intros assets Hnd Hfresh; simpl.
  - now rewrite app_nil_r.
  - apply NoDup_cons in Hnd as [Hk0 Hnd].
    rewrite dict_set_fresh by (apply Hfresh; now left).
    rewrite IH.
    + now rewrite <- app_assoc.
    + exact Hnd.
    + intros k Hk. rewrite fmap_app. simpl.
      intros [Hin|Hin]%elem_of_app.
      * apply (Hfresh k); [now right | exact Hin].
      * apply list_elem_of_singleton in Hin as ->. contradiction.
Qed.

(** X5. Round trip through the registry. When the decoded object has
    pairwise different, non-empty exchange symbols and pair symbols that
    differ even up to case, then, loaded into an empty registry, every
    pair symbol looks up the asset built from its own value, and that
    asset maps back to its exchange symbol. *)
Theorem load_assets_round_trip assets_json k entry :
  NoDup (assets_json.*1) ->
  (forall k', k' ∈ assets_json.*1 -> k' <> "") ->
  NoDup (map (fun ke => lower (Exchange.json_symbol ke.2)) assets_json) ->
  In (k, entry) assets_json ->
  Exchange.get_asset (load_assets assets_json []) (Exchange.json_symbol entry)
    = Ok (make_asset entry) /\
  Exchange.get_symbol asset_getitem (load_assets assets_json []) (make_asset entry)
    = Ok k.
Proof.
  intros Hkeys Hnonempty Hsyms Hin.
  rewrite load_assets_fresh; [|exact Hkeys | intros k' _ H; inversion H].
  simpl.
  apply in_split in Hin as (pre & post & ->).
  rewrite map_app. simpl.
  rewrite map_app in Hsyms. simpl in Hsyms.
  apply NoDup_app in Hsyms as (_ & Hdisj & _).
  assert (Hpre : forall k' a, In (k', a) (map (fun ke => (ke.1, make_asset ke.2)) pre) ->
                 lower (Asset.symbol a) <> lower (Exchange.json_symbol entry)).
  { intros k' a Ha Heq. apply in_map_iff in Ha as ([k1 e1] & [= <- <-] & Hin1).
    simpl in Heq. apply (Hdisj (lower (Exchange.json_symbol e1))).
    - apply list_elem_of_In, in_map_iff. exists (k1, e1). split; [reflexivity | exact Hin1].
    - rewrite Heq. now left. }
  split.
  - unfold Exchange.get_asset.
    rewrite (get_asset_loop_first _ k (make_asset entry) _ (Exchange.json_symbol entry));
      [reflexivity | exact Hpre | reflexivity].
  - apply get_symbol_first.
    + intros k' a Ha Heq. exfalso. apply (Hpre k' a Ha). simpl in Heq. now rewrite Heq.
    + apply Hnonempty. rewrite fmap_app. apply elem_of_app. right. now left.
    + reflexivity.
Qed.

End LoadFacts.

(** The statement of X5 at the sample object. *)
Lemma load_assets_round_trip_witness :
  let assets := Exchange.load_assets sample_hash sample_to_datetime 1500000000
                  (Some "bitfinex") sample_json [] in
  (exists a, Exchange.get_asset assets "eth_usd" = Ok a /\
             Exchange.get_symbol sample_asset_getitem assets a = Ok "ethusd").
Proof.
  cbv zeta.
  destruct (load_assets_round_trip sample_hash sample_to_datetime 1500000000
              (Some "bitfinex") sample_asset_getitem sample_json
              "ethusd" (Exchange.mkJson "eth_usd" "2015-08-01")) as [Hget Hsym].
  - apply (bool_decide_unpack _). vm_compute. exact I.
  - intros k' Hk' ->. vm_compute in Hk'.
    apply elem_of_cons in Hk' as [Hk'|Hk']; [discriminate|].
    apply list_elem_of_singleton in Hk'. discriminate.
  - apply (bool_decide_unpack _). vm_compute. exact I.
  - right. left. reflexivity.
  - eexists. split; [exact Hget | exact Hsym].
Defined.

(** The statement of X2 at the registry with two colliding entries: the
    asset of the second entry maps back to its own key, since the first
    entry carries the symbol in another case, while [get_asset] with
    that symbol finds the first entry. *)
Lemma get_symbol_first_listed_witness :
  exists a,
    dict_get "tBTCUSD" colliding_assets = Some a /\
    Exchange.get_symbol sample_asset_getitem colliding_assets a = Ok "tBTCUSD" /\
    Exchange.get_asset colliding_assets (Asset.symbol a) <> Ok a.
Proof.
  eexists. split; [reflexivity|].
  destruct (get_symbol_first_listed sample_asset_getitem colliding_assets
              (Exchange.make_asset sample_hash sample_to_datetime 1500000000
                 (Some "bitfinex") (Exchange.mkJson "BTC_USD" "2013-06-01")))
    as (Hfirst & _ & _).
  split.
  - apply (Hfirst
             [("btcusd", Exchange.make_asset sample_hash sample_to_datetime 1500000000
                           (Some "bitfinex") (Exchange.mkJson "btc_usd" "2010-01-01"))]
             "tBTCUSD"
             (Exchange.make_asset sample_hash sample_to_datetime 1500000000
                (Some "bitfinex") (Exchange.mkJson "BTC_USD" "2013-06-01"))
             []); try reflexivity; try discriminate.
    intros k a [[= <- <-]|[]] Heq. vm_compute in Heq. discriminate.
  - vm_compute. discriminate.
Defined.

(** ** More on the reconciliation pass *)

Section PassOutcome.

Variable get_order : string -> result Order.t.
Variable utcnow : Timestamp.

Local Abbreviation loop := (Exchange.check_open_orders_loop get_order utcnow).

Lemma check_open_orders_loop_outcome ids : forall portfolio transactions,
  match loop ids portfolio transactions with
  | (_, Ok _) => forall k, k ∈ ids -> exists order, get_order k = Ok order
  | (_, Raise e) => exists k, k ∈ ids /\ get_order k = Raise e
  end.
Proof.
  induction ids as [|id ids IH]; intros p txs; simpl.
  - intros k Hk. inversion Hk.
  - destruct (get_order id) as [order|e] eqn:Hget.
    + assert (Hstep : forall q l,
        match loop ids q l with
        | (_, Ok _) => forall k, k ∈ id :: ids -> exists order, get_order k = Ok order
        | (_, Raise e) => exists k, k ∈ id :: ids /\ get_order k = Raise e
        end).
      { intros q l. specialize (IH q l).
        destruct (loop ids q l) as [q' [l'|e]].
        - intros k [->|Hk]%elem_of_cons; [eauto | now apply IH].
        - destruct IH as (k & Hk & He). exists k. split; [now right | exact He]. }
      destruct (Order.status order); apply Hstep.
    + exists id. split; [now left | exact Hget].
Qed.

(** Orders the connector reports neither FILLED nor CANCELLED leave the
    loop without a trace. *)
Lemma check_open_orders_loop_quiet ids : forall portfolio transactions,
  (forall k, k ∈ ids -> exists order, get_order k = Ok order /\
     Order.status order <> FILLED /\ Order.status order <> CANCELLED) ->
  loop ids portfolio transactions = (portfolio, Ok transactions).
Proof.
  induction ids as [|id ids IH]; intros p txs Hquiet; simpl; [reflexivity|].
  destruct (Hquiet id) as (order & -> & Hf & Hc); [now left|].
  assert (IH' : loop ids p txs = (p, Ok txs)).
  { apply IH. intros k Hk. apply Hquiet. now right. }
  destruct (Order.status order); congruence.
Qed.

(** X6. A pass completes exactly when the connector answers for every
    id of the open set (none, when the set is empty). When it raises,
    the exception is the one the connector raised for some open id, no
    transaction is handed back, and the mapping has gained no entry. *)
Theorem check_open_orders_completes portfolio :
  ((forall k, is_Some (Portfolio.open_orders portfolio !! k) ->
              exists order, get_order k = Ok order) <->
   exists portfolio' transactions,
     Exchange.check_open_orders get_order utcnow portfolio
       = (portfolio', Ok transactions)) /\
  (forall portfolio' e,
     Exchange.check_open_orders get_order utcnow portfolio = (portfolio', Raise e) ->
     (exists k, is_Some (Portfolio.open_orders portfolio !! k) /\
                get_order k = Raise e) /\
     (forall k, Portfolio.open_orders portfolio !! k = None ->
                Portfolio.open_orders portfolio' !! k = None)).
Proof.
  pose proof (check_open_orders_loop_outcome (Exchange.order_ids portfolio) portfolio [])
    as Hout.
  rewrite <- check_open_orders_unfold in Hout.
  split; [split|].
  - intros Hans.
    destruct (Exchange.check_open_orders get_order utcnow portfolio) as [p' [txs|e]];
      [eauto|].
    destruct Hout as (k & Hk & He). apply order_ids_elem in Hk.
    destruct (Hans k Hk) as [order Ho]. congruence.
  - intros (p' & txs & Hrun) k Hk. rewrite Hrun in Hout.
    apply Hout. now apply order_ids_elem.
  - intros p' e Hrun. rewrite Hrun in Hout. split.
    + destruct Hout as (k & Hk & He). exists k. split; [|exact He].
      now apply order_ids_elem.
    + intros k. now apply (check_open_orders_shrinks _ _ _ _ _ k Hrun).
Qed.

Hypothesis Hids : Exchange.answers_by_id get_order.

Lemma elem_of_fills t ids :
  t ∈ flat_map (Exchange.fill_of get_order utcnow) ids <->
  exists order, Order.id order ∈ ids /\ get_order (Order.id order) = Ok order /\
    Order.status order = FILLED /\ t = Exchange.make_transaction utcnow order.
Proof.
  rewrite list_elem_of_In, in_flat_map. split.
  - intros (k & Hk & Ht). unfold Exchange.fill_of in Ht.
    destruct (get_order k) as [order|e] eqn:Hget; [|destruct Ht].
    destruct (Order.status order) eqn:Hst; try (now destruct Ht).
    destruct Ht as [<-|[]].
    pose proof (Hids _ _ Hget) as Hid. subst k.
    exists order. repeat split; try assumption. now apply list_elem_of_In.
  - intros (order & Hin & Hget & Hst & ->).
    exists (Order.id order). split; [now apply list_elem_of_In|].
    unfold Exchange.fill_of. rewrite Hget, Hst. now left.
Qed.

(** X7. What a completed pass hands back: a transaction is in the list
    exactly when it is the transaction of an order that was in the open
    set and that the connector reports FILLED; no two transactions of
    the list stem from the same order. *)
Theorem check_open_orders_transactions portfolio portfolio' transactions :
  Exchange.check_open_orders get_order utcnow portfolio = (portfolio', Ok transactions) ->
  (forall t, t ∈ transactions <->
     exists order,
       is_Some (Portfolio.open_orders portfolio !! Order.id order) /\
       get_order (Order.id order) = Ok order /\
       Order.status order = FILLED /\
       t = Exchange.make_transaction utcnow order) /\
  NoDup (map Transaction.order_id transactions).
Proof.
  intros Hrun.
  destruct (check_open_orders_spec get_order utcnow Hids _ _ _ Hrun) as (-> & _).
  split.
  - intros t. rewrite elem_of_fills. split.
    + intros (order & Hin & H). exists order. split; [|exact H].
      now apply order_ids_elem.
    + intros (order & Hin & H). exists order. split; [|exact H].
      now apply order_ids_elem.
  - pose proof (order_ids_NoDup portfolio) as Hnd. clear Hrun.
    induction (Exchange.order_ids portfolio) as [|id ids IH]; [constructor|].
    apply NoDup_cons in Hnd as [Hfresh Hnd].
    cbn [flat_map]. rewrite map_app.
    apply NoDup_app. split; [|split; [|now apply IH]].
    + unfold Exchange.fill_of. destruct (get_order id) as [order|e]; [|constructor].
      destruct (Order.status order); try constructor.
      * intros H; inversion H.
      * constructor.
    + intros oid Hin1 Hin2.
      apply list_elem_of_In, in_map_iff in Hin1 as (t1 & <- & Ht1).
      apply list_elem_of_In, in_map_iff in Hin2 as (t2 & Heq & Ht2).
      apply list_elem_of_In, (fill_of_order_id get_order utcnow Hids) in Ht1.
      apply list_elem_of_In, elem_of_fills in Ht2
        as (order & Hin & Hget & _ & ->).
      simpl in Heq. apply Hfresh. congruence.
Qed.

(** X8. Reconciliation is idempotent: a second pass that gets the same
    answers as a completed first one hands back no transaction and
    leaves the portfolio as the first pass left it. *)
Theorem check_open_orders_idempotent portfolio portfolio' transactions :
  Exchange.check_open_orders get_order utcnow portfolio = (portfolio', Ok transactions) ->
  Exchange.check_open_orders get_order utcnow portfolio' = (portfolio', Ok []).
Proof.
  intros Hrun.
  destruct (check_open_orders_spec get_order utcnow Hids _ _ _ Hrun)
    as (_ & Hans & Hrem & Hkeep & _).
  rewrite check_open_orders_unfold.
  apply check_open_orders_loop_quiet.
  intros k Hk. apply order_ids_elem in Hk.
  assert (Hnl : ~ Exchange.leaves_open_set get_order k).
  { intros Hl. rewrite (Hrem k Hl) in Hk. now apply is_Some_None in Hk. }
  rewrite (Hkeep k Hnl) in Hk.
  destruct (Hans k Hk) as [order Hget].
  exists order. split; [exact Hget|].
  split; intros Hst; apply Hnl; exists order; tauto.
Qed.

End PassOutcome.

(** The statement of X7 at the scenario of the specification. *)
Lemma check_open_orders_transactions_witness :
  (Exchange.check_open_orders (sample_remote FILLED) 1500000060 sample_portfolio).2
    = Ok [Exchange.make_transaction 1500000060 (sample_order "O1" FILLED)] /\
  Exchange.make_transaction 1500000060 (sample_order "O1" FILLED)
    ∈ [Exchange.make_transaction 1500000060 (sample_order "O1" FILLED)] /\
  NoDup (map Transaction.order_id
           [Exchange.make_transaction 1500000060 (sample_order "O1" FILLED)]).
Proof.
  assert (Hids : Exchange.answers_by_id (sample_remote FILLED)).
  { intros k o Hk. injection Hk as <-. reflexivity. }
  assert (Hrun : Exchange.check_open_orders (sample_remote FILLED) 1500000060 sample_portfolio
                 = ((Exchange.check_open_orders (sample_remote FILLED) 1500000060 sample_portfolio).1,
                    Ok [Exchange.make_transaction 1500000060 (sample_order "O1" FILLED)])).
  { vm_compute. reflexivity. }
  destruct (check_open_orders_transactions (sample_remote FILLED) 1500000060 Hids
              sample_portfolio _ _ Hrun) as [Hin Hnd].
  split; [now rewrite Hrun|]. split; [|exact Hnd].
  apply Hin. exists (sample_order "O1" FILLED).
  repeat split. vm_compute. eauto.
Defined.

(** The statement of X8 at the scenario of the specification. *)
Lemma check_open_orders_idempotent_witness :
  let after := (Exchange.check_open_orders (sample_remote FILLED) 1500000060
                  sample_portfolio).1 in
  Exchange.check_open_orders (sample_remote FILLED) 1500000060 after = (after, Ok []).
Proof.
  cbv zeta.
  assert (Hids : Exchange.answers_by_id (sample_remote FILLED)).
  { intros k o Hk. injection Hk as <-. reflexivity. }
  apply (check_open_orders_idempotent (sample_remote FILLED) 1500000060 Hids
           sample_portfolio _
           [Exchange.make_transaction 1500000060 (sample_order "O1" FILLED)]).
  vm_compute. reflexivity.
Defined.

(* ===================================================================== *)
(** * Further properties of algorithm_exchange.py *)
(* ===================================================================== *)

(** ** The retrying wrappers, whatever the exchange does *)

Section WrapperFacts.

Context {X : Type} `{Connector.t X}.

Lemma absorbed_now {A : Type} (a a' : Algo X) b i (v : result A) :
  only_effects a a' -> slept a' = slept a ->
  (forall error, v <> Raise (ExchangeRequestError error)) ->
  absorbed a b i (a', v).
Proof.
  intros Hsame Hslept Hv. split; [exact Hsame|]. split; [exact Hv|].
  simpl. rewrite Hslept. intros Hd. split; [lia|].
  assert (0 <= Z.max 0 (b - i) * retry_delay a) by (apply Z.mul_nonneg_nonneg; lia).
  lia.
Qed.

Lemma absorbed_retry {A : Type} (a a1 : Algo X) b i (r : Algo X * result A) :
  only_effects a a1 -> slept a1 = slept a + retry_delay a ->
  i < b ->
  absorbed a1 b (i + 1) r -> absorbed a b i r.
Proof.
  intros Hsame Hslept Hlt (Hsame' & Hv & Hbound).
  split; [eapply only_effects_trans; eassumption|]. split; [exact Hv|].
  intros Hd.
  assert (Hdelay : retry_delay a1 = retry_delay a) by apply Hsame.
  rewrite Hdelay in Hbound. specialize (Hbound Hd).
  rewrite Z.max_r in Hbound |- * by lia.
  replace ((b - i) * retry_delay a)
    with ((b - (i + 1)) * retry_delay a + retry_delay a) by ring.
  lia.
Qed.

Lemma not_request_error e :
  as_request_error e = None ->
  forall (A : Type) error, @Raise A e <> Raise (ExchangeRequestError error).
Proof. intros He A error [= ->]. discriminate. Qed.

Lemma _order_absorbed asset amount limit_price stop_price style m :
  forall (a : Algo X) i,
  Z.to_nat (retry_order a - i) = m ->
  absorbed a (retry_order a) i
    (_order a asset amount limit_price stop_price style i).
Proof.
  induction m as [|m IH]; intros a i Hm; rewrite _order_equation_1;
    destruct (Connector.order asset amount limit_price stop_price style (exchange a))
      as [x [v|e]];
    try (apply absorbed_now; [repeat split | reflexivity | discriminate]);
    destruct (as_request_error e) eqn:He;
    try (apply absorbed_now; [repeat split | reflexivity | now apply not_request_error]);
    cbv zeta; destruct (Z_lt_dec i (retry_order a)) as [Hlt|Hge];
    try lia; try (apply absorbed_now; [repeat split | reflexivity | discriminate]).
  eapply absorbed_retry; [apply only_effects_attempt | reflexivity | exact Hlt |].
  apply (IH (sleep (log_record _ (set_exchange x a)))). simpl. lia.
Qed.

Lemma _check_open_orders_absorbed m :
  forall (a : Algo X) i,
  Z.to_nat (retry_check_open_orders a - i) = m ->
  absorbed a (retry_check_open_orders a) i (_check_open_orders a i).
Proof.
  induction m as [|m IH]; intros a i Hm; rewrite _check_open_orders_equation_1;
    destruct (Connector.check_open_orders (exchange a)) as [x [v|e]];
    try (apply absorbed_now; [repeat split | reflexivity | discriminate]);
    destruct (as_request_error e) eqn:He;
    try (apply absorbed_now; [repeat split | reflexivity | now apply not_request_error]);
    cbv zeta; destruct (Z_lt_dec i (retry_check_open_orders a)) as [Hlt|Hge];
    try lia; try (apply absorbed_now; [repeat split | reflexivity | discriminate]).
  eapply absorbed_retry; [apply only_effects_attempt | reflexivity | exact Hlt |].
  apply (IH (sleep (log_record _ (set_exchange x a)))). simpl. lia.
Qed.

Lemma _get_open_orders_absorbed asset m :
  forall (a : Algo X) i,
  Z.to_nat (retry_get_open_orders a - i) = m ->
  absorbed a (retry_get_open_orders a) i (_get_open_orders a asset i).
Proof.
  induction m as [|m IH]; intros a i Hm; rewrite _get_open_orders_equation_1;
    destruct (Connector.get_open_orders asset (exchange a)) as [x [v|e]];
    try (apply absorbed_now; [repeat split | reflexivity | discriminate]);
    destruct (as_request_error e) eqn:He;
    try (apply absorbed_now; [repeat split | reflexivity | now apply not_request_error]);
    cbv zeta; destruct (Z_lt_dec i (retry_get_open_orders a)) as [Hlt|Hge];
    try lia; try (apply absorbed_now; [repeat split | reflexivity | discriminate]).
  eapply absorbed_retry; [apply only_effects_attempt | reflexivity | exact Hlt |].
  apply (IH (sleep (log_record _ (set_exchange x a)))). simpl. lia.
Qed.

Lemma _update_portfolio_absorbed m :
  forall (a : Algo X) i,
  Z.to_nat (retry_update_portfolio a - i) = m ->
  absorbed a (retry_update_portfolio a) i (_update_portfolio a i).
Proof.
  induction m as [|m IH]; intros a i Hm; rewrite _update_portfolio_equation_1;
    destruct (Connector.update_portfolio (exchange a)) as [x [v|e]];
    try (apply absorbed_now; [repeat split | reflexivity | discriminate]);
    destruct (as_request_error e) eqn:He;
    try (apply absorbed_now; [repeat split | reflexivity | now apply not_request_error]);
    cbv zeta; destruct (Z_lt_dec i (retry_update_portfolio a)) as [Hlt|Hge];
    try lia; try (apply absorbed_now; [repeat split | reflexivity | discriminate]).
  eapply absorbed_retry; [apply only_effects_attempt | reflexivity | exact Hlt |].
  specialize (IH (sleep (log_record (AttemptFailed "update portfolio" i s)
                           (set_exchange x a))) (i + 1)).
  destruct (_update_portfolio _ _) as [a2 [[]|e']]; apply IH; simpl; lia.
Qed.

(** X9. Whatever the exchange does, none of the four retrying wrappers
    lets an [ExchangeRequestError] through, and none touches anything
    of the algorithm but the exchange, the log and the time slept. *)
Theorem wrappers_absorb_request_errors (a : Algo X) :
  (forall i,
     only_effects a (_update_portfolio a i).1 /\
     forall error, (_update_portfolio a i).2 <> Raise (ExchangeRequestError error)) /\
  (forall i,
     only_effects a (_check_open_orders a i).1 /\
     forall error, (_check_open_orders a i).2 <> Raise (ExchangeRequestError error)) /\
  (forall asset i,
     only_effects a (_get_open_orders a asset i).1 /\
     forall error, (_get_open_orders a asset i).2 <> Raise (ExchangeRequestError error)) /\
  (forall asset amount limit_price stop_price style i,
     only_effects a (_order a asset amount limit_price stop_price style i).1 /\
     forall error,
       (_order a asset amount limit_price stop_price style i).2
       <> Raise (ExchangeRequestError error)).
Proof.
  split; [|split; [|split]]; intros.
  - destruct (_update_portfolio_absorbed _ a i eq_refl) as (? & ? & _). now split.
  - destruct (_check_open_orders_absorbed _ a i eq_refl) as (? & ? & _). now split.
  - destruct (_get_open_orders_absorbed asset _ a i eq_refl) as (? & ? & _). now split.
  - destruct (_order_absorbed asset amount limit_price stop_price style _ a i eq_refl)
      as (? & ? & _). now split.
Qed.

(** X10. With a non-negative delay, a wrapper called from attempt 0
    blocks for at most its budget times the delay, and for no time at
    all when the budget is zero or negative; the time slept never goes
    down. *)
Theorem wrappers_sleep_at_most_budget (a : Algo X) :
  0 <= retry_delay a ->
  slept a <= slept (_update_portfolio a 0).1
    <= slept a + Z.max 0 (retry_update_portfolio a) * retry_delay a /\
  slept a <= slept (_check_open_orders a 0).1
    <= slept a + Z.max 0 (retry_check_open_orders a) * retry_delay a /\
  (forall asset,
     slept a <= slept (_get_open_orders a asset 0).1
       <= slept a + Z.max 0 (retry_get_open_orders a) * retry_delay a) /\
  (forall asset amount limit_price stop_price style,
     slept a <= slept (_order a asset amount limit_price stop_price style 0).1
       <= slept a + Z.max 0 (retry_order a) * retry_delay a).
Proof.
  intros Hd. split; [|split; [|split]]; intros.
  - destruct (_update_portfolio_absorbed _ a 0 eq_refl) as (_ & _ & Hs).
    rewrite Z.sub_0_r in Hs. now apply Hs.
  - destruct (_check_open_orders_absorbed _ a 0 eq_refl) as (_ & _ & Hs).
    rewrite Z.sub_0_r in Hs. now apply Hs.
  - destruct (_get_open_orders_absorbed asset _ a 0 eq_refl) as (_ & _ & Hs).
    rewrite Z.sub_0_r in Hs. now apply Hs.
  - destruct (_order_absorbed asset amount limit_price stop_price style _ a 0 eq_refl)
      as (_ & _ & Hs).
    rewrite Z.sub_0_r in Hs. now apply Hs.
Qed.

(** *** What comes after the request errors *)

Lemma request_error_or_not {A : Type} (r : result A) :
  (forall error, r <> Raise (ExchangeRequestError error)) ->
  match r with
  | Ok _ => True
  | Raise e => as_request_error e = None
  end.
Proof.
  intros Hr. destruct r as [v|e]; [exact I|].
  destruct e; try reflexivity. exfalso. now apply (Hr error).
Qed.

Lemma _order_passes_on asset amount limit_price stop_price style n :
  forall (a : Algo X) i x' x'' r,
  request_errors (Connector.order asset amount limit_price stop_price style)
    n (exchange a) x' ->
  Connector.order asset amount limit_price stop_price style x' = (x'', r) ->
  (forall error, r <> Raise (ExchangeRequestError error)) ->
  Z.of_nat n <= retry_order a - i ->
  exists a',
    _order a asset amount limit_price stop_price style i = (a', r) /\
    exchange a' = x'' /\
    slept a' = slept a + Z.of_nat n * retry_delay a /\
    length (log a') = (length (log a) + n)%nat.
Proof.
  induction n as [|n IH]; intros a i x' x'' r Herr Hop Hr Hn.
  - inversion Herr; subst. apply request_error_or_not in Hr.
    rewrite _order_equation_1, Hop.
    destruct r as [v|e]; [|rewrite Hr];
      (eexists; split; [reflexivity|]; simpl; repeat split; lia).
  - inversion Herr as [|? ? x1 ? error Hop1 Hrest]; subst.
    rewrite _order_equation_1, Hop1. simpl.
    destruct (Z_lt_dec i (retry_order a)) as [Hlt|Hge]; [|lia].
    set (a1 := sleep (log_record (AttemptFailed "order" i error) (set_exchange x1 a))).
    destruct (IH a1 (i + 1) x' x'' r Hrest Hop Hr) as (a' & Hrun & Hx & Hs & Hl);
      [simpl; lia|].
    exists a'. split; [exact Hrun|]. split; [exact Hx|].
    rewrite Hs, Hl. simpl. rewrite length_app. simpl. split; lia.
Qed.

Lemma _check_open_orders_passes_on n :
  forall (a : Algo X) i x' x'' r,
  request_errors Connector.check_open_orders n (exchange a) x' ->
  Connector.check_open_orders x' = (x'', r) ->
  (forall error, r <> Raise (ExchangeRequestError error)) ->
  Z.of_nat n <= retry_check_open_orders a - i ->
  exists a',
    _check_open_orders a i =
      (a', match r with Ok v => Ok (Some v) | Raise e => Raise e end) /\
    exchange a' = x'' /\
    slept a' = slept a + Z.of_nat n * retry_delay a /\
    length (log a') = (length (log a) + n)%nat.
Proof.
  induction n as [|n IH]; intros a i x' x'' r Herr Hop Hr Hn.
  - inversion Herr; subst. apply request_error_or_not in Hr.
    rewrite _check_open_orders_equation_1, Hop.
    destruct r as [v|e]; [|rewrite Hr];
      (eexists; split; [reflexivity|]; simpl; repeat split; lia).
  - inversion Herr as [|? ? x1 ? error Hop1 Hrest]; subst.
    rewrite _check_open_orders_equation_1, Hop1. simpl.
    destruct (Z_lt_dec i (retry_check_open_orders a)) as [Hlt|Hge]; [|lia].
    set (a1 := sleep (log_record (AttemptFailed "check open orders" i error)
                        (set_exchange x1 a))).
    destruct (IH a1 (i + 1) x' x'' r Hrest Hop Hr) as (a' & Hrun & Hx & Hs & Hl);
      [simpl; lia|].
    exists a'. split; [exact Hrun|]. split; [exact Hx|].
    rewrite Hs, Hl. simpl. rewrite length_app. simpl. split; lia.
Qed.

Lemma _get_open_orders_passes_on asset n :
  forall (a : Algo X) i x' x'' r,
  request_errors (Connector.get_open_orders asset) n (exchange a) x' ->
  Connector.get_open_orders asset x' = (x'', r) ->
  (forall error, r <> Raise (ExchangeRequestError error)) ->
  Z.of_nat n <= retry_get_open_orders a - i ->
  exists a',
    _get_open_orders a asset i =
      (a', match r with Ok v => Ok (Some v) | Raise e => Raise e end) /\
    exchange a' = x'' /\
    slept a' = slept a + Z.of_nat n * retry_delay a /\
    length (log a') = (length (log a) + n)%nat.
Proof.
  induction n as [|n IH]; intros a i x' x'' r Herr Hop Hr Hn.
  - inversion Herr; subst. apply request_error_or_not in Hr.
    rewrite _get_open_orders_equation_1, Hop.
    destruct r as [v|e]; [|rewrite Hr];
      (eexists; split; [reflexivity|]; simpl; repeat split; lia).
  - inversion Herr as [|? ? x1 ? error Hop1 Hrest]; subst.
    rewrite _get_open_orders_equation_1, Hop1. simpl.
    destruct (Z_lt_dec i (retry_get_open_orders a)) as [Hlt|Hge]; [|lia].
    set (a1 := sleep (log_record (AttemptFailed "open orders" i error)
                        (set_exchange x1 a))).
    destruct (IH a1 (i + 1) x' x'' r Hrest Hop Hr) as (a' & Hrun & Hx & Hs & Hl);
      [simpl; lia|].
    exists a'. split; [exact Hrun|]. split; [exact Hx|].
    rewrite Hs, Hl. simpl. rewrite length_app. simpl. split; lia.
Qed.

Lemma _update_portfolio_passes_on n :
  forall (a : Algo X) i x' x'' r,
  request_errors Connector.update_portfolio n (exchange a) x' ->
  Connector.update_portfolio x' = (x'', r) ->
  (forall error, r <> Raise (ExchangeRequestError error)) ->
  Z.of_nat n <= retry_update_portfolio a - i ->
  exists a',
    _update_portfolio a i =
      (a', match r with Ok _ => Ok tt | Raise e => Raise e end) /\
    exchange a' = x'' /\
    slept a' = slept a + Z.of_nat n * retry_delay a /\
    length (log a') = (length (log a) + n)%nat.
Proof.
  induction n as [|n IH]; intros a i x' x'' r Herr Hop Hr Hn.
  - inversion Herr; subst. apply request_error_or_not in Hr.
    rewrite _update_portfolio_equation_1, Hop.
    destruct r as [v|e]; [|rewrite Hr];
      (eexists; split; [reflexivity|]; simpl; repeat split; lia).
  - inversion Herr as [|? ? x1 ? error Hop1 Hrest]; subst.
    rewrite _update_portfolio_equation_1, Hop1. simpl.
    destruct (Z_lt_dec i (retry_update_portfolio a)) as [Hlt|Hge]; [|lia].
    set (a1 := sleep (log_record (AttemptFailed "update portfolio" i error)
                        (set_exchange x1 a))).
    destruct (IH a1 (i + 1) x' x'' r Hrest Hop Hr) as (a' & Hrun & Hx & Hs & Hl);
      [simpl; lia|].
    exists a'. rewrite Hrun. split; [now destruct r|]. split; [exact Hx|].
    rewrite Hs, Hl. simpl. rewrite length_app. simpl. split; lia.
Qed.

(** X11. The write path: when exchange.order raises [n] request errors
    in a row, [n] within the budget left, and then returns or raises
    something else, [_order] gives exactly that (the id, [None] for no
    order placed, or the other exception, which is not retried), after
    [n] delays and [n] warnings. *)
Theorem order_wrapper_after_request_errors (a : Algo X) asset amount limit_price stop_price
    style i n x' x'' r :
  request_errors (Connector.order asset amount limit_price stop_price style)
    n (exchange a) x' ->
  Connector.order asset amount limit_price stop_price style x' = (x'', r) ->
  (forall error, r <> Raise (ExchangeRequestError error)) ->
  Z.of_nat n <= retry_order a - i ->
  exists a',
    _order a asset amount limit_price stop_price style i = (a', r) /\
    exchange a' = x'' /\
    slept a' = slept a + Z.of_nat n * retry_delay a /\
    length (log a') = (length (log a) + n)%nat.
Proof. apply _order_passes_on. Qed.

(** X12. The read paths: when the exchange call raises [n] request
    errors in a row, [n] within the budget left, and then returns or
    raises something else, [_check_open_orders] and [_get_open_orders]
    give the returned value (or that exception, not retried) and
    [_update_portfolio] returns nothing (or raises that exception),
    each after [n] delays and [n] warnings. *)
Theorem read_wrappers_after_request_errors (a : Algo X) i n :
  (forall x' x'' r,
     request_errors Connector.update_portfolio n (exchange a) x' ->
     Connector.update_portfolio x' = (x'', r) ->
     (forall error, r <> Raise (ExchangeRequestError error)) ->
     Z.of_nat n <= retry_update_portfolio a - i ->
     exists a',
       _update_portfolio a i =
         (a', match r with Ok _ => Ok tt | Raise e => Raise e end) /\
       exchange a' = x'' /\
       slept a' = slept a + Z.of_nat n * retry_delay a /\
       length (log a') = (length (log a) + n)%nat) /\
  (forall x' x'' r,
     request_errors Connector.check_open_orders n (exchange a) x' ->
     Connector.check_open_orders x' = (x'', r) ->
     (forall error, r <> Raise (ExchangeRequestError error)) ->
     Z.of_nat n <= retry_check_open_orders a - i ->
     exists a',
       _check_open_orders a i =
         (a', match r with Ok v => Ok (Some v) | Raise e => Raise e end) /\
       exchange a' = x'' /\
       slept a' = slept a + Z.of_nat n * retry_delay a /\
       length (log a') = (length (log a) + n)%nat) /\
  (forall asset x' x'' r,
     request_errors (Connector.get_open_orders asset) n (exchange a) x' ->
     Connector.get_open_orders asset x' = (x'', r) ->
     (forall error, r <> Raise (ExchangeRequestError error)) ->
     Z.of_nat n <= retry_get_open_orders a - i ->
     exists a',
       _get_open_orders a asset i =
         (a', match r with Ok v => Ok (Some v) | Raise e => Raise e end) /\
       exchange a' = x'' /\
       slept a' = slept a + Z.of_nat n * retry_delay a /\
       length (log a') = (length (log a) + n)%nat).
Proof.
  split; [|split]; intros.
  - eapply _update_portfolio_passes_on; eassumption.
  - eapply _check_open_orders_passes_on; eassumption.
  - eapply _get_open_orders_passes_on; eassumption.
Qed.

End WrapperFacts.

(** ** handle_data and order, step by step *)

Section TickFacts.

Context {X : Type} `{Connector.t X}.
Variable collaborators : Collaborators X.

Lemma process_transactions_tracker (transactions : list Transaction.t) :
  forall a : Algo X,
  let a' := fold_left (fun s transaction => process_transaction transaction s)
              transactions a in
  processed_transactions (perf_tracker a')
    = processed_transactions (perf_tracker a) ++ transactions /\
  processed_orders (perf_tracker a') = processed_orders (perf_tracker a) /\
  exchange a' = exchange a /\ minute_perfs a' = minute_perfs a /\
  slept a' = slept a /\ log a' = log a.
Proof.
  induction transactions as [|t l IH]; intros a; simpl.
  - rewrite app_nil_r. repeat split.
  - destruct (IH (process_transaction t a)) as (Ht & Ho & Hx & Hm & Hs & Hl).
    rewrite Ht, Ho, Hx, Hm, Hs, Hl. simpl. rewrite <- app_assoc. repeat split.
Qed.

(** X13. The reconciliation statement of [handle_data]: when it goes
    through, the transactions [_check_open_orders] returned have been
    handed to the performance tracker, in order, behind the ones it had,
    and the tracker's orders are untouched; when it raises, the tracker
    is as it was and the exception is no request error (a [TypeError]
    when the wrapper had given up and returned [None]). *)
Theorem reconcile_step_feeds_tracker (a : Algo X) :
  match reconcile_step a with
  | (a', Ok _) =>
      exists a1 transactions,
        _check_open_orders a 0 = (a1, Ok (Some transactions)) /\
        processed_transactions (perf_tracker a')
          = processed_transactions (perf_tracker a) ++ transactions /\
        processed_orders (perf_tracker a') = processed_orders (perf_tracker a) /\
        exchange a' = exchange a1
  | (a', Raise e) =>
      perf_tracker a' = perf_tracker a /\
      (forall error, e <> ExchangeRequestError error) /\
      (forall a1, _check_open_orders a 0 = (a1, Ok None) -> e = TypeError)
  end.
Proof.
  unfold reconcile_step.
  destruct (_check_open_orders_absorbed _ a 0 eq_refl) as (Hsame & Hne & _).
  destruct (_check_open_orders a 0) as [a1 [[transactions|]|e]]; simpl in *.
  - destruct (process_transactions_tracker transactions a1) as (Ht & Ho & Hx & _).
    cbv zeta in Ht, Ho, Hx.
    assert (Hp : perf_tracker a1 = perf_tracker a) by apply Hsame.
    exists a1, transactions. rewrite Ht, Ho, Hx, Hp. repeat split.
  - split; [apply Hsame|]. split; [discriminate | reflexivity].
  - split; [apply Hsame|]. split; [|discriminate].
    intros error ->. now apply (Hne error).
Qed.

Lemma run_steps_app (l1 l2 : list (Algo X -> Algo X * result unit)) :
  forall a a1,
  run_steps l1 a = (a1, Ok tt) ->
  run_steps (l1 ++ l2) a = run_steps l2 a1.
Proof.
  induction l1 as [|step l1 IH]; simpl; intros a a1 Hrun.
  - now injection Hrun as <-.
  - destruct (step a) as [a' [[]|e]]; [|discriminate]. now apply IH.
Qed.


(** X15. What [order] hands back. An order it returns is the entry of
    the open-orders mapping under some id, it has been passed to the
    performance tracker behind the orders that were there, and the call
    was made outside the pre-session phase. When [order] raises, the
    tracker is as it was. When the exchange places no order and returns
    [None] for the id, [order] raises [KeyError]. *)
Theorem order_outcome (a : Algo X) asset amount limit_price stop_price style :
  match order collaborators a asset amount limit_price stop_price style with
  | (a', Ok booked) =>
      in_before_trading_start a = false /\
      (exists order_id,
         Portfolio.open_orders (Connector.portfolio (exchange a')) !! order_id
           = Some booked) /\
      processed_orders (perf_tracker a')
        = processed_orders (perf_tracker a) ++ [booked] /\
      processed_transactions (perf_tracker a')
        = processed_transactions (perf_tracker a)
  | (a', Raise e) => perf_tracker a' = perf_tracker a
  end /\
  (forall amount' style' x,
     in_before_trading_start a = false ->
     _calculate_order collaborators asset amount limit_price stop_price style
       = Ok (amount', style') ->
     Connector.order asset amount' limit_price stop_price (Some style') (exchange a)
       = (x, Ok None) ->
     order collaborators a asset amount limit_price stop_price style
       = (set_exchange x a, Raise KeyError)).
Proof.
  unfold order, disallowed_in_before_trading_start, order_body. split.
  - destruct (in_before_trading_start a) eqn:Hbts; [reflexivity|].
    destruct (_calculate_order collaborators asset amount limit_price stop_price style)
      as [[amount' style']|e]; [|reflexivity].
    destruct (_order_absorbed asset amount' limit_price stop_price (Some style') _ a 0
                eq_refl) as (Hsame & _).
    assert (Hp : perf_tracker
                   (_order a asset amount' limit_price stop_price (Some style') 0).1
                 = perf_tracker a) by apply Hsame.
    destruct (_order a asset amount' limit_price stop_price (Some style') 0)
      as [a1 [order_id|e]]; simpl in Hp; [|exact Hp].
    unfold open_orders_getitem, updated_portfolio.
    destruct order_id as [k|]; [|exact Hp].
    destruct (Portfolio.open_orders (Connector.portfolio (exchange a1)) !! k)
      as [booked|] eqn:Hk; [|exact Hp].
    simpl. rewrite Hp. repeat split. exists k. exact Hk.
  - intros amount' style' x -> -> Hop.
    rewrite _order_equation_1, Hop. reflexivity.
Qed.

End TickFacts.

(** The statement of X10 on the scripted exchange: six timeouts of
    [check_open_orders] block for five delays of five. *)
Lemma wrappers_sleep_at_most_budget_witness :
  retry_delay (mock_algo 0 6) = 5 /\
  slept (_check_open_orders (mock_algo 0 6) 0).1 = 25 /\
  slept (mock_algo 0 6) <= slept (_check_open_orders (mock_algo 0 6) 0).1
    <= slept (mock_algo 0 6) + Z.max 0 (retry_check_open_orders (mock_algo 0 6)) * 5.
Proof.
  split; [reflexivity|]. split; [vm_compute; reflexivity|].
  destruct (wrappers_sleep_at_most_budget (mock_algo 0 6)) as (_ & Hcheck & _).
  - simpl. lia.
  - exact Hcheck.
Defined.

(** The statement of X11 on the scripted exchange: one timeout, then
    the order is booked. *)
Lemma order_wrapper_after_request_errors_witness :
  exists a',
    _order (mock_algo 1 0) btc_usd 2 None None (Some MarketOrder) 0
      = (a', Ok (Some "O1")) /\
    slept a' = 5 /\ length (log a') = 1%nat.
Proof.
  pose (x1 := mkMock (mock_portfolio (exchange (mock_algo 1 0))) 0 0 []).
  destruct (order_wrapper_after_request_errors (mock_algo 1 0) btc_usd 2 None None
              (Some MarketOrder) 0 1 x1
              (mock_order btc_usd 2 None None (Some MarketOrder) x1).1
              (Ok (Some "O1")))
    as (a' & Hrun & _ & Hs & Hl).
  - apply (request_errors_S _ _ _ x1 _ "timeout"); [reflexivity | constructor].
  - reflexivity.
  - discriminate.
  - simpl. lia.
  - exists a'. split; [exact Hrun|]. split; [exact Hs | exact Hl].
Defined.

(** The statement of X12 on the scripted exchange: five timeouts of
    [check_open_orders], the budget, then the empty pass. *)
Lemma read_wrappers_after_request_errors_witness :
  exists a',
    _check_open_orders (mock_algo 0 5) 0 = (a', Ok (Some [])) /\
    slept a' = 25 /\ length (log a') = 5%nat.
Proof.
  pose (x := fun n => mkMock (mock_portfolio (exchange (mock_algo 0 5))) 0 n []).
  destruct (read_wrappers_after_request_errors (mock_algo 0 5) 0 5) as (_ & Hcheck & _).
  destruct (Hcheck (x 0%nat) (x 0%nat) (Ok [])) as (a' & Hrun & _ & Hs & Hl).
  - change (exchange (mock_algo 0 5)) with (x 5%nat).
    do 5 (eapply (request_errors_S _ _ _ _ _ "timeout"); [reflexivity|]).
    constructor.
  - vm_compute. reflexivity.
  - discriminate.
  - simpl. lia.
  - exists a'. split; [exact Hrun|]. split; [exact Hs | exact Hl].
Defined.


Section SnapshotFacts.

Context {X : Type} `{Connector.t X}.
Variable collaborators : Collaborators X.

Lemma run_steps_keeps (P : Algo X -> Prop) (steps : list (Algo X -> Algo X * result unit)) :
  Forall (fun step => forall s, P s -> P (step s).1) steps ->
  forall a, P a -> P (run_steps steps a).1.
Proof.
  induction 1 as [|step steps Hstep _ IH]; intros a Ha; simpl; [exact Ha|].
  specialize (Hstep a Ha).
  destruct (step a) as [a1 [[]|e]]; simpl in *; [now apply IH | exact Hstep].
Qed.

(** X16. A tick records at most one snapshot, and none when it raises.
    Provided the strategy callback leaves the snapshots alone,
    [handle_data] either keeps [minute_perfs] as it was or appends one
    record to it, and keeps it as it was whenever it raises. *)
Theorem handle_data_snapshots (a : Algo X) data :
  (forall callback s d,
     _handle_data collaborators = Some callback ->
     minute_perfs (callback s d).1 = minute_perfs s) ->
  match handle_data collaborators a data with
  | (a', Ok _) =>
      minute_perfs a' = minute_perfs a \/
      exists snapshot, minute_perfs a' = minute_perfs a ++ [snapshot]
  | (a', Raise e) => minute_perfs a' = minute_perfs a
  end.
Proof.
  intros Hcallback. unfold handle_data.
  destruct (is_running a); simpl negb; cbv iota; [|now left].
  pose (l4 := [ sync_portfolio_step; reconcile_step;
                strategy_step collaborators data;
                account_controls_step collaborators ]).
  assert (Hkeep : minute_perfs (run_steps l4 a).1 = minute_perfs a).
  { apply (run_steps_keeps (fun s => minute_perfs s = minute_perfs a)); [|reflexivity].
    repeat constructor.
    - intros s Hs. unfold sync_portfolio_step.
      destruct (_update_portfolio_absorbed _ s 0 eq_refl) as (Hsame & _).
      rewrite <- Hs. apply Hsame.
    - intros s Hs. unfold reconcile_step.
      destruct (_check_open_orders_absorbed _ s 0 eq_refl) as (Hsame & _).
      assert (Hm : minute_perfs (_check_open_orders s 0).1 = minute_perfs s)
        by apply Hsame.
      destruct (_check_open_orders s 0) as [s1 [[transactions|]|e]]; simpl in *;
        try congruence.
      destruct (process_transactions_tracker transactions s1) as (_ & _ & _ & Hmp & _).
      cbv zeta in Hmp. congruence.
    - intros s Hs. unfold strategy_step.
      destruct (_handle_data collaborators) as [callback|] eqn:Hcb; [|exact Hs].
      rewrite (Hcallback callback s data eq_refl). exact Hs.
    - intros s Hs. exact Hs. }
  change (handle_data_steps collaborators data)
    with (l4 ++ [performance_step collaborators]).
  destruct (run_steps l4 a) as [a4 [[]|e]] eqn:Hrun; simpl in Hkeep.
  - rewrite (run_steps_app l4 _ a a4 Hrun). simpl. unfold performance_step.
    destruct (to_dict collaborators (perf_tracker a4)) as [perf_dict|e].
    + right. exists (merge_metrics perf_dict). simpl. now rewrite Hkeep.
    + destruct (is_Exception e); [left|]; exact Hkeep.
  - assert (Hraise : run_steps (l4 ++ [performance_step collaborators]) a = (a4, Raise e)).
    { clear Hkeep Hcallback. revert a Hrun. generalize l4. intros l.
      induction l as [|step l IH]; simpl; intros a Hrun; [discriminate|].
      destruct (step a) as [a1 [[]|e1]]; [now apply IH | exact Hrun]. }
    rewrite Hraise. exact Hkeep.
Qed.

End SnapshotFacts.

(** The statement of X16 on the scripted exchange, which has no
    strategy callback: the tick that ends in a [TypeError] records
    nothing. *)
Lemma handle_data_snapshots_witness :
  _handle_data mock_collaborators = None /\
  (handle_data mock_collaborators (mock_algo 0 6) 1500000060).2 = Raise TypeError /\
  minute_perfs (handle_data mock_collaborators (mock_algo 0 6) 1500000060).1
    = minute_perfs (mock_algo 0 6).
Proof.
  split; [reflexivity|]. split; [vm_compute; reflexivity|].
  pose proof (handle_data_snapshots mock_collaborators (mock_algo 0 6) 1500000060) as Hs.
  destruct (handle_data mock_collaborators (mock_algo 0 6) 1500000060)
    as [a' [[]|e]] eqn:Hrun.
  - exfalso. apply (f_equal snd) in Hrun. vm_compute in Hrun. discriminate.
  - apply Hs. intros callback s d Hcb. discriminate.
Defined.
